(** * Verification model of [video_analysis_agent.py]

    Shallow embedding of the Hercules log parser, the analysis node (code-fence
    stripping, [json.loads] with its fallback) and the markdown reporting node.

    Python [str] values are lists of Unicode code points.  Python's exceptions
    are modelled by the error monad [Exc]. *)

From Stdlib Require Import String Ascii ZArith Bool Lia List Sorted.
Import ListNotations.
Open Scope list_scope.
Open Scope Z_scope.
Arguments String.list_ascii_of_string s%_string.

(** ** Python strings *)

Definition pystr := list Z.

(** Literal conversion: an ASCII Rocq string as a Python [str]. *)
Definition ps (s : string) : pystr :=
  map (fun a => Z.of_nat (nat_of_ascii a)) (list_ascii_of_string s).

Definition is_nil {A} (l : list A) : bool :=
  match l with
  | [] => true
  | _ => false
  end.

Fixpoint pystr_eqb (a b : pystr) : bool :=
  match a, b with
  | [], [] => true
  | x :: a', y :: b' => (x =? y) && pystr_eqb a' b'
  | _, _ => false
  end.

(** [str.startswith] *)
Fixpoint startswith (s p : pystr) : bool :=
  match p, s with
  | [], _ => true
  | c :: p', d :: s' => (c =? d) && startswith s' p'
  | _ :: _, [] => false
  end.

(** [str.endswith] *)
Definition endswith (s p : pystr) : bool := startswith (rev s) (rev p).

(** [str.isspace] for one code point (bidirectional class WS, B or S, or
    category Zs). *)
Definition py_isspace (c : Z) : bool :=
  ((9 <=? c) && (c <=? 13)) || ((28 <=? c) && (c <=? 32)) ||
  (c =? 133) || (c =? 160) || (c =? 5760) ||
  ((8192 <=? c) && (c <=? 8202)) || (c =? 8232) || (c =? 8233) ||
  (c =? 8239) || (c =? 8287) || (c =? 12288).

Fixpoint lstrip (s : pystr) : pystr :=
  match s with
  | c :: s' => if py_isspace c then lstrip s' else s
  | [] => []
  end.

(** [str.strip()] with no argument. *)
Definition py_strip (s : pystr) : pystr := rev (lstrip (rev (lstrip s))).

(** [s.split('\n')] *)
Fixpoint split_nl (s : pystr) : list pystr :=
  match s with
  | [] => [[]]
  | c :: s' =>
      if c =? 10 then [] :: split_nl s'
      else match split_nl s' with
           | l :: ls => (c :: l) :: ls
           | [] => [[c]]
           end
  end.

(** [s.replace(old, new)]: every non-overlapping occurrence, left to right. *)
Fixpoint replace_nonempty (fuel : nat) (old new s : pystr) : pystr :=
  match fuel with
  | O => s
  | S f =>
      match s with
      | [] => []
      | c :: s' =>
          if startswith s old then new ++ replace_nonempty f old new (skipn (length old) s)
          else c :: replace_nonempty f old new s'
      end
  end.

Fixpoint replace_empty (new s : pystr) : pystr :=
  match s with
  | [] => new
  | c :: s' => new ++ c :: replace_empty new s'
  end.

Definition py_replace (old new s : pystr) : pystr :=
  match old with
  | [] => replace_empty new s
  | _ => replace_nonempty (length s) old new s
  end.

Fixpoint join (sep : pystr) (l : list pystr) : pystr :=
  match l with
  | [] => []
  | [x] => x
  | x :: l' => x ++ sep ++ join sep l'
  end.

(** Decimal digits of a natural number ([int.__repr__] / [str(int)]). *)
Fixpoint digits_rev (fuel : nat) (n : N) : pystr :=
  match fuel with
  | O => []
  | S f =>
      let d := (48 + Z.of_N (N.modulo n 10))%Z in
      if (n <? 10)%N then [d] else d :: digits_rev f (N.div n 10)
  end.

Definition N_to_dec (n : N) : pystr := rev (digits_rev (N.size_nat n) n).

Definition Z_to_dec (z : Z) : pystr :=
  if z <? 0 then 45 :: N_to_dec (Z.to_N (- z)) else N_to_dec (Z.to_N z).

(** Lower-case hexadecimal, zero-padded to [width] digits. *)
Definition hex_digit (d : Z) : Z := if d <? 10 then 48 + d else 87 + d.

Fixpoint hex_pad (width : nat) (n : Z) : pystr :=
  match width with
  | O => []
  | S w => hex_pad w (n / 16) ++ [hex_digit (n mod 16)]
  end.

(** ** Python exceptions and the error monad *)

Inductive exn :=
| JSONDecodeError
| RecursionError
| ValueError
| TypeError
| KeyError
| AttributeError.

Inductive Exc (A : Type) :=
| Ok (a : A)
| Raise (e : exn).
Arguments Ok {A} a.
Arguments Raise {A} e.

Definition bind {A B} (m : Exc A) (k : A -> Exc B) : Exc B :=
  match m with
  | Ok a => k a
  | Raise e => Raise e
  end.

Notation "x <- m ;; k" := (bind m (fun x => k))
  (at level 61, m at next level, right associativity).

Arguments ps s%_string.

(** ** Python runtime facts the program depends on

    The program's behaviour depends on a few tables of the Python runtime that
    are not part of the program: Unicode case mapping, decimal and printable
    character classes beyond ASCII, the [repr] of binary64 floats, and two
    interpreter limits.  They are gathered in one record and every result below
    holds for every such runtime; ASCII behaviour is fixed by the model. *)
Record pyrt := {
  rt_lower_other : pystr -> Z -> pystr -> list Z;
    (** [str.lower] of a code point >= 128, given the text before and after it *)
  rt_isdecimal_other : Z -> bool;      (** Unicode category Nd, code point >= 128 *)
  rt_isprintable_other : Z -> bool;    (** [str.isprintable], code point >= 128 *)
  rt_float_repr : pystr -> pystr;      (** [repr(float(lexeme))] *)
  rt_float_is_zero : pystr -> bool;    (** [float(lexeme) == 0.0] *)
  rt_int_max_str_digits : nat;         (** [sys.get_int_max_str_digits()]: 0 or >= 640 *)
  rt_recursion_limit : nat             (** containers the C decoder may nest *)
}.

(** A runtime for concrete runs: CPython's default digit limit, a nesting
    budget of 1000, and beyond ASCII no case mapping, no decimal digits and
    every code point printable; floats print as written. *)
Definition sample_rt : pyrt := {|
  rt_lower_other := fun _ c _ => [c];
  rt_isdecimal_other := fun _ => false;
  rt_isprintable_other := fun _ => true;
  rt_float_repr := fun lx => lx;
  rt_float_is_zero := fun _ => false;
  rt_int_max_str_digits := 4300;
  rt_recursion_limit := 1000
|}.

Set Warnings "-register-all".

(** ** JSON values as produced by [json.loads] (Python objects) *)

Inductive json :=
| JNull
| JBool (b : bool)
| JInt (z : Z)
| JFloat (lexeme : pystr)
| JStr (s : pystr)
| JArr (l : list json)
| JObj (kvs : list (pystr * json)).

(** [dict.get] / [key in d] on the insertion-ordered association list. *)
Fixpoint obj_get (k : pystr) (kvs : list (pystr * json)) : option json :=
  match kvs with
  | [] => None
  | (k', v) :: r => if pystr_eqb k k' then Some v else obj_get k r
  end.

(** [d[k] = v]: an existing key keeps its position. *)
Fixpoint dict_set (kvs : list (pystr * json)) (k : pystr) (v : json) :=
  match kvs with
  | [] => [(k, v)]
  | (k', v') :: r => if pystr_eqb k k' then (k', v) :: r else (k', v') :: dict_set r k v
  end.

(** ** The C scanner of [json] ([Modules/_json.c]) *)

Inductive PR (A : Type) :=
| POk (a : A) (rest : pystr)
| PErr (e : exn)
| PFuel.
Arguments POk {A} a rest.
Arguments PErr {A} e.
Arguments PFuel {A}.

(** [IS_WHITESPACE]: space, tab, newline, carriage return. *)
Definition json_ws (c : Z) : bool := (c =? 32) || (c =? 9) || (c =? 10) || (c =? 13).

Fixpoint skip_ws (s : pystr) : pystr :=
  match s with
  | c :: s' => if json_ws c then skip_ws s' else s
  | [] => []
  end.

Definition hex_val (c : Z) : option Z :=
  if (48 <=? c) && (c <=? 57) then Some (c - 48)
  else if (97 <=? c) && (c <=? 102) then Some (c - 87)
  else if (65 <=? c) && (c <=? 70) then Some (c - 55)
  else None.

Definition hex4 (a b c d : Z) : option Z :=
  match hex_val a, hex_val b, hex_val c, hex_val d with
  | Some x, Some y, Some z, Some w => Some (((x * 16 + y) * 16 + z) * 16 + w)
  | _, _, _, _ => None
  end.

Definition simple_escape (e : Z) : option Z :=
  match e with
  | 34 => Some 34 | 92 => Some 92 | 47 => Some 47
  | 98 => Some 8 | 102 => Some 12 | 110 => Some 10
  | 114 => Some 13 | 116 => Some 9
  | _ => None
  end.

Definition pcons (c : Z) (p : PR pystr) : PR pystr :=
  match p with
  | POk s r => POk (c :: s) r
  | PErr e => PErr e
  | PFuel => PFuel
  end.

Definition is_high_surrogate (u : Z) : bool := (55296 <=? u) && (u <=? 56319).
Definition is_low_surrogate (u : Z) : bool := (56320 <=? u) && (u <=? 57343).

(** [scanstring_unicode] in strict mode, on the text after the opening quote. *)
Fixpoint pstring (s : pystr) : PR pystr :=
  match s with
  | [] => PErr JSONDecodeError
  | c :: t =>
      if c =? 34 then POk [] t
      else if c =? 92 then
        match t with
        | [] => PErr JSONDecodeError
        | e :: t' =>
            if e =? 117 then
              match t' with
              | a :: b :: c1 :: d :: r =>
                  match hex4 a b c1 d with
                  | None => PErr JSONDecodeError
                  | Some u =>
                      if is_high_surrogate u then
                        match r with
                        | x :: y :: a2 :: b2 :: c2 :: d2 :: r2 =>
                            if (x =? 92) && (y =? 117) then
                              match hex4 a2 b2 c2 d2 with
                              | None => PErr JSONDecodeError
                              | Some u2 =>
                                  if is_low_surrogate u2 then
                                    pcons (65536 + Z.lor (Z.shiftl (u - 55296) 10) (u2 - 56320))
                                      (pstring r2)
                                  else pcons u (pstring r)
                              end
                            else pcons u (pstring r)
                        | _ => pcons u (pstring r)
                        end
                      else pcons u (pstring r)
                  end
              | _ => PErr JSONDecodeError
              end
            else
              match simple_escape e with
              | Some x => pcons x (pstring t')
              | None => PErr JSONDecodeError
              end
        end
      else if c <? 32 then PErr JSONDecodeError
      else pcons c (pstring t)
  end.

Definition is_digit (c : Z) : bool := (48 <=? c) && (c <=? 57).

Fixpoint span_digits (s : pystr) : pystr * pystr :=
  match s with
  | c :: t => if is_digit c then let (ds, r) := span_digits t in (c :: ds, r) else ([], s)
  | [] => ([], [])
  end.

(** [_match_number_unicode]: the integer part, the optional fraction (a
    period followed by at least one digit) and the optional exponent, which is
    given up when no digit follows [e]/[E] and its sign. *)
Definition lex_int_part (s : pystr) : option (pystr * pystr) :=
  match s with
  | c :: t =>
      if (49 <=? c) && (c <=? 57) then let (ds, r) := span_digits t in Some (c :: ds, r)
      else if c =? 48 then Some ([48], t)
      else None
  | [] => None
  end.

Definition lex_frac (s : pystr) : pystr * pystr :=
  match s with
  | c :: d :: t =>
      if (c =? 46) && is_digit d then let (ds, r) := span_digits t in (46 :: d :: ds, r)
      else ([], s)
  | _ => ([], s)
  end.

Definition lex_exp (s : pystr) : pystr * pystr :=
  match s with
  | e :: t =>
      if (e =? 101) || (e =? 69) then
        let '(sg, t') := match t with
                         | x :: t'' => if (x =? 45) || (x =? 43) then ([x], t'') else ([], t)
                         | [] => ([], [])
                         end in
        match span_digits t' with
        | ([], _) => ([], s)
        | (ds, r) => (e :: sg ++ ds, r)
        end
      else ([], s)
  | [] => ([], [])
  end.

Definition dec_value (ds : pystr) : Z := fold_left (fun acc d => acc * 10 + (d - 48)) ds 0.

Section Agent.

Variable rt : pyrt.

(** The number token: a float when a fraction or an exponent is present,
    otherwise an [int], whose conversion raises [ValueError] beyond the
    interpreter's digit limit. *)
Definition pnumber (s : pystr) : PR json :=
  let '(sign, s1) := match s with
                     | c :: t => if c =? 45 then ([45], t) else ([], s)
                     | [] => ([], s)
                     end in
  match lex_int_part s1 with
  | None => PErr JSONDecodeError
  | Some (ip, r1) =>
      let '(fr, r2) := lex_frac r1 in
      let '(ex, r3) := lex_exp r2 in
      match fr, ex with
      | [], [] =>
          if (0 <? rt_int_max_str_digits rt)%nat && (rt_int_max_str_digits rt <? length ip)%nat
          then PErr ValueError
          else POk (JInt (match sign with [] => dec_value ip | _ => - dec_value ip end)) r1
      | _, _ => POk (JFloat (sign ++ ip ++ fr ++ ex)) r3
      end
  end.

Definition pmap {A B} (f : A -> B) (p : PR A) : PR B :=
  match p with
  | POk a r => POk (f a) r
  | PErr e => PErr e
  | PFuel => PFuel
  end.

(** [scan_once_unicode], [_parse_array_unicode] and [_parse_object_unicode].
    [d] is what is left of the recursion limit; [n] is fuel. *)
Fixpoint scan_once (n d : nat) (s : pystr) {struct n} : PR json :=
  match n with
  | O => PFuel
  | S n' =>
      match s with
      | [] => PErr JSONDecodeError
      | c :: t =>
          if c =? 34 then pmap JStr (pstring t)
          else if c =? 123 then
            match d with
            | O => PErr RecursionError
            | S d' =>
                match skip_ws t with
                | c1 :: r => if c1 =? 125 then POk (JObj []) r else parse_members n' d' (c1 :: r) []
                | [] => parse_members n' d' [] []
                end
            end
          else if c =? 91 then
            match d with
            | O => PErr RecursionError
            | S d' =>
                match skip_ws t with
                | c1 :: r => if c1 =? 93 then POk (JArr []) r else parse_elems n' d' (c1 :: r) []
                | [] => PErr JSONDecodeError
                end
            end
          else if startswith s (ps "null") then POk JNull (skipn 4 s)
          else if startswith s (ps "true") then POk (JBool true) (skipn 4 s)
          else if startswith s (ps "false") then POk (JBool false) (skipn 5 s)
          else if startswith s (ps "NaN") then POk (JFloat (ps "NaN")) (skipn 3 s)
          else if startswith s (ps "Infinity") then POk (JFloat (ps "Infinity")) (skipn 8 s)
          else if startswith s (ps "-Infinity") then POk (JFloat (ps "-Infinity")) (skipn 9 s)
          else pnumber s
      end
  end
with parse_elems (n d : nat) (s : pystr) (acc : list json) {struct n} : PR json :=
  match n with
  | O => PFuel
  | S n' =>
      match scan_once n' d s with
      | POk v r =>
          match skip_ws r with
          | c1 :: r' =>
              if c1 =? 93 then POk (JArr (rev (v :: acc))) r'
              else if c1 =? 44 then parse_elems n' d (skip_ws r') (v :: acc)
              else PErr JSONDecodeError
          | [] => PErr JSONDecodeError
          end
      | PErr e => PErr e
      | PFuel => PFuel
      end
  end
with parse_members (n d : nat) (s : pystr) (acc : list (pystr * json)) {struct n} : PR json :=
  match n with
  | O => PFuel
  | S n' =>
      match s with
      | c0 :: t =>
          if c0 =? 34 then
            match pstring t with
            | POk k r =>
                match skip_ws r with
                | c1 :: r' =>
                    if c1 =? 58 then
                      match scan_once n' d (skip_ws r') with
                      | POk v r2 =>
                          let acc' := dict_set acc k v in
                          match skip_ws r2 with
                          | c2 :: r3 =>
                              if c2 =? 125 then POk (JObj acc') r3
                              else if c2 =? 44 then parse_members n' d (skip_ws r3) acc'
                              else PErr JSONDecodeError
                          | [] => PErr JSONDecodeError
                          end
                      | PErr e => PErr e
                      | PFuel => PFuel
                      end
                    else PErr JSONDecodeError
                | [] => PErr JSONDecodeError
                end
            | PErr e => PErr e
            | PFuel => PFuel
            end
          else PErr JSONDecodeError
      | [] => PErr JSONDecodeError
      end
  end.

Definition json_fuel (s : pystr) : nat := (2 * length s + 2)%nat.

(** [json.loads(s)] for a [str]: a leading BOM is refused, whitespace around
    the single value is allowed, anything else after it is "Extra data".
    The fuel is always sufficient (lemma [scan_once_fuel_enough]). *)
Definition json_loads (s : pystr) : Exc json :=
  if startswith s [65279] then Raise JSONDecodeError
  else
    let s0 := skip_ws s in
    match scan_once (json_fuel s0) (rt_recursion_limit rt) s0 with
    | POk v r => match skip_ws r with
                 | [] => Ok v
                 | _ => Raise JSONDecodeError
                 end
    | PErr e => Raise e
    | PFuel => Raise RecursionError
    end.

(** ** Python's [str], [repr], [str.lower] and [json.dumps] on decoded values *)

(** [str.lower]: ASCII letters are fixed; other code points follow the
    runtime's table, which may look at the surrounding text (final sigma). *)
Fixpoint lower_aux (pre s : pystr) : pystr :=
  match s with
  | [] => []
  | c :: t =>
      (if (65 <=? c) && (c <=? 90) then [c + 32]
       else if c <? 128 then [c]
       else rt_lower_other rt pre c t) ++ lower_aux (pre ++ [c]) t
  end.

Definition py_lower (s : pystr) : pystr := lower_aux [] s.

(** Unicode decimal digits, the class of [\d] in a [str] pattern. *)
Definition py_isdecimal (c : Z) : bool :=
  is_digit c || ((128 <=? c) && rt_isdecimal_other rt c).

Definition py_isprintable (c : Z) : bool :=
  if c <? 128 then (32 <=? c) && (c <=? 126) else rt_isprintable_other rt c.

(** [unicode_repr] *)
Definition repr_char (q c : Z) : pystr :=
  if (c =? q) || (c =? 92) then [92; c]
  else if c =? 9 then [92; 116]
  else if c =? 10 then [92; 110]
  else if c =? 13 then [92; 114]
  else if (c <? 32) || (c =? 127) then 92 :: 120 :: hex_pad 2 c
  else if c <? 127 then [c]
  else if py_isprintable c then [c]
  else if c <=? 255 then 92 :: 120 :: hex_pad 2 c
  else if c <=? 65535 then 92 :: 117 :: hex_pad 4 c
  else 92 :: 85 :: hex_pad 8 c.

Definition repr_str (s : pystr) : pystr :=
  let q := if existsb (Z.eqb 39) s && negb (existsb (Z.eqb 34) s) then 34 else 39 in
  [q] ++ flat_map (repr_char q) s ++ [q].

(** [repr] of a decoded value: [None], [True], [1], [[1, 'a']], [{'k': 1}]. *)
Fixpoint py_repr (v : json) : pystr :=
  match v with
  | JNull => ps "None"
  | JBool true => ps "True"
  | JBool false => ps "False"
  | JInt z => Z_to_dec z
  | JFloat lx => rt_float_repr rt lx
  | JStr s => repr_str s
  | JArr l => [91] ++ join (ps ", ") (map py_repr l) ++ [93]
  | JObj kvs =>
      [123] ++ join (ps ", ") (map (fun kv => repr_str (fst kv) ++ ps ": " ++ py_repr (snd kv)) kvs)
      ++ [125]
  end.

(** [str(v)] (also what an f-string replacement field prints). *)
Definition py_str (v : json) : pystr :=
  match v with
  | JStr s => s
  | _ => py_repr v
  end.

(** [ascii_escape_unichar] / [encode_basestring_ascii] *)
Definition u_escape (c : Z) : pystr := 92 :: 117 :: hex_pad 4 c.

Definition json_esc_char (c : Z) : pystr :=
  if c =? 92 then [92; 92]
  else if c =? 34 then [92; 34]
  else if c =? 8 then [92; 98]
  else if c =? 12 then [92; 102]
  else if c =? 10 then [92; 110]
  else if c =? 13 then [92; 114]
  else if c =? 9 then [92; 116]
  else if (32 <=? c) && (c <=? 126) then [c]
  else if 65536 <=? c then
    u_escape (55296 + Z.shiftr (c - 65536) 10) ++ u_escape (56320 + Z.land (c - 65536) 1023)
  else u_escape c.

Definition encode_basestring_ascii (s : pystr) : pystr :=
  [34] ++ flat_map json_esc_char s ++ [34].

Definition json_float_str (lx : pystr) : pystr :=
  let r := rt_float_repr rt lx in
  if pystr_eqb r (ps "nan") then ps "NaN"
  else if pystr_eqb r (ps "inf") then ps "Infinity"
  else if pystr_eqb r (ps "-inf") then ps "-Infinity"
  else r.

(** [json.dumps(v)] with the default arguments: ASCII output, separators
    [", "] and [": "], no indentation. *)
Fixpoint json_dumps (v : json) : pystr :=
  match v with
  | JNull => ps "null"
  | JBool true => ps "true"
  | JBool false => ps "false"
  | JInt z => Z_to_dec z
  | JFloat lx => json_float_str lx
  | JStr s => encode_basestring_ascii s
  | JArr l => [91] ++ join (ps ", ") (map json_dumps l) ++ [93]
  | JObj kvs =>
      [123] ++ join (ps ", ")
        (map (fun kv => encode_basestring_ascii (fst kv) ++ ps ": " ++ json_dumps (snd kv)) kvs)
      ++ [125]
  end.

(** [json.dumps(plan, indent=2)] for a list of strings. *)
Definition json_dumps_indent2 (l : list pystr) : pystr :=
  match l with
  | [] => ps "[]"
  | _ => [91; 10; 32; 32] ++ join [44; 10; 32; 32] (map encode_basestring_ascii l) ++ [10; 93]
  end.

(** Truth value of a decoded value ([if plan_text:]). *)
Definition truthy (v : json) : bool :=
  match v with
  | JNull => false
  | JBool b => b
  | JInt z => negb (z =? 0)
  | JFloat lx => negb (rt_float_is_zero rt lx)
  | JStr s => negb (is_nil s)
  | JArr l => negb (is_nil l)
  | JObj kvs => negb (is_nil kvs)
  end.

(** ** [HerculesLogParser] *)

(** [entry.get(k)]: only a [dict] has [get]. *)
Definition py_get (entry : json) (k : pystr) : Exc (option json) :=
  match entry with
  | JObj kvs => Ok (obj_get k kvs)
  | _ => Raise AttributeError
  end.

(** [for x in v]: a list yields its items, a dict its keys, a str its
    characters; other values are not iterable. *)
Definition py_iter (v : json) : Exc (list json) :=
  match v with
  | JArr l => Ok l
  | JObj kvs => Ok (map (fun kv => JStr (fst kv)) kvs)
  | JStr s => Ok (map (fun c => JStr [c]) s)
  | _ => Raise TypeError
  end.

(** [x == 'literal'] for the result of [get]. *)
Definition get_is (o : option json) (s : pystr) : bool :=
  match o with
  | Some (JStr x) => pystr_eqb x s
  | _ => false
  end.

Fixpoint span_decimal (s : pystr) : pystr * pystr :=
  match s with
  | c :: t => if py_isdecimal c then let (ds, r) := span_decimal t in (c :: ds, r) else ([], s)
  | [] => ([], [])
  end.

(** [re.sub(r'^\d+\.\s*', '', line)]: the anchored pattern matches at most
    once, at the start. *)
Definition strip_ordinal (line : pystr) : pystr :=
  match span_decimal line with
  | ([], _) => line
  | (_, c :: r) => if c =? 46 then lstrip r else line
  | (_, []) => line
  end.

(** One plan step: [re.sub(r'^\d+\.\s*', '', line).strip()]. *)
Definition step_of_line (line : pystr) : pystr := py_strip (strip_ordinal line).

(** The list comprehension over [plan_text.split('\n')]. *)
Definition plan_steps (plan_text : pystr) : list pystr :=
  map step_of_line (filter (fun line => negb (is_nil (py_strip line))) (split_nl plan_text)).

(** The loop of [extract_plan]: the first [planner_agent] entry whose
    content is a dict with a truthy [plan] gives the plan. *)
Fixpoint plan_loop (entries : list json) : Exc (list pystr) :=
  match entries with
  | [] => Ok []
  | entry :: rest =>
      name <- py_get entry (ps "name") ;;
      if get_is name (ps "planner_agent") then
        content <- py_get entry (ps "content") ;;
        match content with
        | Some (JObj kvs) =>
            let plan_text := match obj_get (ps "plan") kvs with
                             | Some p => p
                             | None => JStr []
                             end in
            if truthy plan_text then
              match plan_text with
              | JStr t => Ok (plan_steps t)
              | _ => Raise AttributeError
              end
            else plan_loop rest
        | _ => plan_loop rest
        end
      else plan_loop rest
  end.

Definition extract_plan (logs : json) : Exc (list pystr) :=
  match logs with
  | JObj kvs =>
      match obj_get (ps "planner_agent") kvs with
      | Some target => entries <- py_iter target ;; plan_loop entries
      | None => Ok []
      end
  | JArr entries => plan_loop entries
  | _ => Ok []
  end.

Record evidence := mk_evidence {
  ev_id : nat;
  ev_type : pystr;
  ev_description : pystr
}.

(** The description of an observation: [json.dumps] of a dict, [str] of
    anything else. *)
Definition describe (content : json) : pystr :=
  match content with
  | JObj _ => json_dumps content
  | _ => py_str content
  end.

(** The loop of [extract_evidence] over [enumerate(target_logs)]. *)
Fixpoint evidence_loop (i : nat) (entries : list json) : Exc (list evidence) :=
  match entries with
  | [] => Ok []
  | entry :: rest =>
      name <- py_get entry (ps "name") ;;
      if get_is name (ps "user") then
        content <- py_get entry (ps "content") ;;
        let content := match content with
                       | Some c => c
                       | None => JStr []
                       end in
        evs <- evidence_loop (S i) rest ;;
        Ok (mk_evidence i (ps "observation") (describe content) :: evs)
      else evidence_loop (S i) rest
  end.

Definition target_logs (logs : json) : json :=
  match logs with
  | JObj kvs =>
      match obj_get (ps "planner_agent") kvs with
      | Some target => target
      | None => JArr []
      end
  | JArr _ => logs
  | _ => JArr []
  end.

Definition extract_evidence (logs : json) : Exc (list evidence) :=
  entries <- py_iter (target_logs logs) ;;
  evidence_loop 0 entries.

(** ** [analysis_node] *)

Inductive ModelProvider := OPENAI | GEMINI | GROQ.

(** [ModelProvider(value)] *)
Definition model_provider_of (value : pystr) : Exc ModelProvider :=
  if pystr_eqb value (ps "openai") then Ok OPENAI
  else if pystr_eqb value (ps "gemini") then Ok GEMINI
  else if pystr_eqb value (ps "groq") then Ok GROQ
  else Raise ValueError.

Definition nl : pystr := [10].
Definition quoted (s : string) : pystr := [34] ++ ps s ++ [34].
Definition indent4 : pystr := ps "    ".

(** [f"[Log ID {e['id']}] {e['description'][:1500]}"] joined by blank lines. *)
Definition evidence_text (evs : list evidence) : pystr :=
  join (nl ++ nl)
    (map (fun e => ps "[Log ID " ++ Z_to_dec (Z.of_nat (ev_id e)) ++ ps "] "
                   ++ firstn 1500 (ev_description e)) evs).

(** The prompt f-string, line by line with its four-space indentation. *)
Definition prompt (plan : list pystr) (evs : list evidence) : pystr :=
  nl
  ++ indent4 ++ ps "You are an Expert QA Video Analyst. Your task is to verify if a test agent executed its plan correctly based on the Execution Logs provided." ++ nl
  ++ indent4 ++ nl
  ++ indent4 ++ ps "The 'Execution Logs' act as the ground truth (visual evidence/DOM state)." ++ nl
  ++ indent4 ++ nl
  ++ indent4 ++ ps "PLAN TO VERIFY:" ++ nl
  ++ indent4 ++ json_dumps_indent2 plan ++ nl
  ++ indent4 ++ nl
  ++ indent4 ++ ps "EXECUTION LOGS (EVIDENCE):" ++ nl
  ++ indent4 ++ evidence_text evs ++ nl
  ++ indent4 ++ nl
  ++ indent4 ++ ps "INSTRUCTIONS:" ++ nl
  ++ indent4 ++ ps "1. For EACH step in the plan, determine if it was " ++ quoted "Observed"
       ++ ps ", a " ++ quoted "Deviation" ++ ps ", or " ++ quoted "Skipped" ++ ps "." ++ nl
  ++ indent4 ++ ps "2. " ++ quoted "Observed" ++ ps ": The log confirms the action happened." ++ nl
  ++ indent4 ++ ps "3. " ++ quoted "Deviation" ++ ps ": The log shows a failure, error, or missing element." ++ nl
  ++ indent4 ++ ps "4. " ++ quoted "Skipped" ++ ps ": Steps that were supposed to happen AFTER a Deviation/Failure." ++ nl
  ++ indent4 ++ nl
  ++ indent4 ++ ps "Return the result strictly as a JSON list of objects with keys: "
       ++ quoted "step" ++ ps ", " ++ quoted "status" ++ ps ", " ++ quoted "evidence_snippet"
       ++ ps ", " ++ quoted "reasoning" ++ ps "." ++ nl
  ++ indent4 ++ ps "Do not add markdown formatting." ++ nl
  ++ indent4.

(** [content = response.content.strip()] and the two code-fence checks. *)
Definition strip_fences (response : pystr) : pystr :=
  let content := py_strip response in
  let content := if startswith content (ps "```json") then skipn 7 content else content in
  if endswith content (ps "```") then firstn (length content - 3)%nat content else content.

(** The classification list used when [json.loads] raises [JSONDecodeError]. *)
Definition fallback_report (content : pystr) : json :=
  JArr [JObj [(ps "step", JStr (ps "Error parsing LLM output"));
              (ps "status", JStr (ps "Deviation"));
              (ps "reasoning", JStr content);
              (ps "evidence", JStr [])]].

(** Everything [analysis_node] does once [llm.invoke] has returned:
    only [JSONDecodeError] is caught. *)
Definition parse_response (response : pystr) : Exc json :=
  let content := strip_fences response in
  match json_loads content with
  | Ok v => Ok v
  | Raise JSONDecodeError => Ok (fallback_report content)
  | Raise e => Raise e
  end.

(** [analysis_node]; [invoke] is the chat model's reply to a prompt (the
    network call). *)
Definition analysis_node (provider : pystr) (invoke : ModelProvider -> pystr -> pystr)
    (plan : list pystr) (evs : list evidence) : Exc json :=
  p <- model_provider_of provider ;;
  parse_response (invoke p (prompt plan evs)).

(** ** [reporting_node] *)

(** [item[k]] *)
Definition py_subscript (item : json) (k : pystr) : Exc json :=
  match item with
  | JObj kvs => match obj_get k kvs with
                | Some v => Ok v
                | None => Raise KeyError
                end
  | _ => Raise TypeError
  end.

(** [v.lower()] and [v.replace(old, new)]: methods of [str] only. *)
Definition str_lower (v : json) : Exc pystr :=
  match v with
  | JStr s => Ok (py_lower s)
  | _ => Raise AttributeError
  end.

Definition str_value (v : json) : Exc pystr :=
  match v with
  | JStr s => Ok s
  | _ => Raise AttributeError
  end.

Definition icon_check : pystr := [9989].                (** U+2705 *)
Definition icon_cross : pystr := [10060].               (** U+274C *)
Definition icon_warning : pystr := [9888; 65039].       (** U+26A0 U+FE0F *)

(** [item['reasoning'].replace("|", "-").replace("\n", " ")] on a [str]. *)
Definition safe_text (r : pystr) : pystr := py_replace [10] [32] (py_replace [124] [45] r).

(** One pass of the loop body of [reporting_node]. *)
Definition report_row (item : json) : Exc pystr :=
  st <- py_subscript item (ps "status") ;;
  low <- str_lower st ;;
  let status_icon := if pystr_eqb low (ps "deviation") then icon_cross else icon_check in
  st <- py_subscript item (ps "status") ;;
  low <- str_lower st ;;
  let status_icon := if pystr_eqb low (ps "skipped") then icon_warning else status_icon in
  r <- py_subscript item (ps "reasoning") ;;
  r <- str_value r ;;
  let safe_reasoning := safe_text r in
  step <- py_subscript item (ps "step") ;;
  status <- py_subscript item (ps "status") ;;
  Ok (ps "| " ++ py_str step ++ ps " | " ++ status_icon ++ ps " **" ++ py_str status
      ++ ps "** | " ++ safe_reasoning ++ ps " |" ++ nl).

Fixpoint report_rows (items : list json) : Exc pystr :=
  match items with
  | [] => Ok []
  | item :: rest =>
      row <- report_row item ;;
      rows <- report_rows rest ;;
      Ok (row ++ rows)
  end.

Definition report_header : pystr :=
  ps "# " ++ [128373; 65039; 8205; 9792; 65039] ++ ps " Hercules Video Analysis Report" ++ nl ++ nl
  ++ ps "| Step Description | Result | Notes/Evidence |" ++ nl
  ++ ps "| :--- | :--- | :--- |" ++ nl.

Definition reporting_node (report : json) : Exc pystr :=
  items <- py_iter report ;;
  rows <- report_rows items ;;
  Ok (report_header ++ rows).

(** ** The graph: parser, analyst, reporter *)

Definition run_graph (provider : pystr) (invoke : ModelProvider -> pystr -> pystr)
    (raw_logs : json) : Exc pystr :=
  plan <- extract_plan raw_logs ;;
  evs <- extract_evidence raw_logs ;;
  report <- analysis_node provider invoke plan evs ;;
  reporting_node report.

(** The part of the graph that runs after the model call has returned. *)
Definition after_invoke (response : pystr) : Exc pystr :=
  report <- parse_response response ;;
  reporting_node report.

(** ** Readings of the specification

    Predicates that follow the wording of the specification, to be compared
    with the definitions above. *)

(** The ASCII case folding of the "case-insensitive" status match. *)
Definition ascii_lower (c : Z) : Z := if (65 <=? c) && (c <=? 90) then c + 32 else c.

Definition is_ascii (s : pystr) : bool := forallb (fun c => c <? 128) s.

Definition ascii_ci_eq (a b : pystr) : bool := pystr_eqb (map ascii_lower a) (map ascii_lower b).

(** Observed: positive marker, Deviation: negative, Skipped: warning, anything
    else: positive. *)
Definition claimed_glyph (status : pystr) : pystr :=
  if ascii_ci_eq status (ps "Deviation") then icon_cross
  else if ascii_ci_eq status (ps "Skipped") then icon_warning
  else icon_check.

(** A line beginning with an ordinal prefix: one or more digits and a period. *)
Definition starts_with_ordinal (line : pystr) : bool :=
  match span_decimal line with
  | ([], _) => false
  | (_, c :: _) => c =? 46
  | (_, []) => false
  end.

(** A field of a log event; [None] when the event is not a mapping or lacks it. *)
Definition field (e : json) (k : pystr) : option json :=
  match e with
  | JObj kvs => obj_get k kvs
  | _ => None
  end.

Definition is_object (e : json) : Prop := exists kvs, e = JObj kvs.

(** Evidence as the specification words it: one record per event named
    "user", carrying the event's position, with its content as JSON text when a
    mapping and as its string form otherwise. *)
Definition evidence_as_claimed (evs : list json) : list evidence :=
  map (fun ie => mk_evidence (fst ie) (ps "observation")
                   (match field (snd ie) (ps "content") with
                    | Some (JObj kvs) => json_dumps (JObj kvs)
                    | Some c => py_str c
                    | None => []
                    end))
      (filter (fun ie => get_is (field (snd ie) (ps "name")) (ps "user"))
              (combine (seq 0%nat (length evs)) evs)).

(** The plan as the specification words it: the first event named
    "planner_agent" whose content is a mapping containing a plan field; its
    text split on newlines, blank lines dropped, the ordinal prefix of each line
    removed. *)
Definition has_plan_field (e : json) : bool :=
  get_is (field e (ps "name")) (ps "planner_agent") &&
  match field e (ps "content") with
  | Some (JObj kvs) => match obj_get (ps "plan") kvs with Some _ => true | None => false end
  | _ => false
  end.

Definition plan_as_claimed (evs : list json) : list pystr :=
  match find has_plan_field evs with
  | Some e =>
      match field e (ps "content") with
      | Some (JObj kvs) =>
          match obj_get (ps "plan") kvs with
          | Some (JStr t) =>
              map strip_ordinal (filter (fun line => negb (is_nil (py_strip line))) (split_nl t))
          | _ => []
          end
      | _ => []
      end
  | None => []
  end.

(** The plan text an event offers: the non-empty [plan] string of a
    "planner_agent" event whose content is a mapping. *)
Definition plan_text_of (e : json) : option pystr :=
  if get_is (field e (ps "name")) (ps "planner_agent") then
    match field e (ps "content") with
    | Some (JObj kvs) =>
        match obj_get (ps "plan") kvs with
        | Some (JStr t) => if is_nil t then None else Some t
        | _ => None
        end
    | _ => None
    end
  else None.

Fixpoint first_some {A B} (f : A -> option B) (l : list A) : option B :=
  match l with
  | [] => None
  | x :: l' => match f x with Some y => Some y | None => first_some f l' end
  end.

(** The plan of the first event offering a non-empty plan text. *)
Definition plan_of_first_text (evs : list json) : list pystr :=
  match first_some plan_text_of evs with
  | Some t => plan_steps t
  | None => []
  end.

(** A "planner_agent" event with mapping content whose [plan] is true as a
    condition has a string there (otherwise [.split] raises). *)
Definition plan_field_is_text (e : json) : Prop :=
  forall kvs v,
    get_is (field e (ps "name")) (ps "planner_agent") = true ->
    field e (ps "content") = Some (JObj kvs) ->
    obj_get (ps "plan") kvs = Some v -> truthy v = true -> exists t, v = JStr t.

(** A classification the reporting loop can print: a mapping with a [str]
    status, a [str] reasoning and some step. *)
Definition classification_ok (item : json) : bool :=
  match item with
  | JObj kvs =>
      match obj_get (ps "status") kvs with Some (JStr _) => true | _ => false end &&
      match obj_get (ps "reasoning") kvs with Some (JStr _) => true | _ => false end &&
      match obj_get (ps "step") kvs with Some _ => true | None => false end
  | _ => false
  end.

(** A parsed reply the reporting node renders: a list of printable
    classifications, or an empty mapping or string (nothing to iterate). *)
Definition renderable (v : json) : bool :=
  match v with
  | JArr items => forallb classification_ok items
  | JObj [] => true
  | JStr [] => true
  | _ => false
  end.

(** ** Unicode scalar values *)

(** A code point that is not a surrogate: what a string of well-formed text
    holds. *)
Definition scalar_value (c : Z) : bool :=
  (0 <=? c) && (c <=? 1114111) && negb ((55296 <=? c) && (c <=? 57343)).

(** ** Scanner bookkeeping *)

(** [padd w p]: the result [p] with [w] appended to its unread rest. *)
Definition padd {A} (w : pystr) (p : PR A) : PR A :=
  match p with
  | POk a r => POk a (r ++ w)
  | PErr e => PErr e
  | PFuel => PFuel
  end.

(** Every character of [w] is JSON whitespace. *)
Definition all_ws (w : pystr) : bool := forallb json_ws w.

(** [ssuffix r s]: [r] is a strict suffix of [s]. *)
Inductive ssuffix (r : pystr) : pystr -> Prop :=
| ss_here (x : Z) : ssuffix r (x :: r)
| ss_later (x : Z) (s : pystr) : ssuffix r s -> ssuffix r (x :: s).

(** A successful result leaves a strict suffix of its input unread. *)
Definition rest_ok {A} (s : pystr) (p : PR A) : Prop :=
  match p with
  | POk _ r => ssuffix r s
  | _ => True
  end.

(** ** Example inputs *)

(** A "planner_agent" event with the given plan text. *)
Definition planner_event (plan : pystr) : json :=
  JObj [(ps "name", JStr (ps "planner_agent"));
        (ps "content", JObj [(ps "plan", JStr plan)])].

(** A "user" event with the given content. *)
Definition user_event (content : json) : json :=
  JObj [(ps "name", JStr (ps "user")); (ps "content", content)].

Definition sample_plan : pystr := ps "1. Open page" ++ nl ++ ps "2. Click submit".

(** A log: the plan, then two observations, one a mapping and one a string. *)
Definition sample_log : list json :=
  [planner_event sample_plan;
   user_event (JObj [(ps "url", JStr (ps "/home"))]);
   JObj [(ps "name", JStr (ps "browser_nav_agent"))];
   user_event (JStr (ps "clicked"))].

(** A planner event with an empty plan before one with a plan. *)
Definition empty_plan_first_log : list json :=
  [planner_event []; planner_event (ps "1. Open page")].

(** A classification whose reasoning holds a pipe and a newline. *)
Definition sample_item : json :=
  JObj [(ps "step", JStr (ps "Open page")); (ps "status", JStr (ps "Deviation"));
        (ps "reasoning", JStr (ps "failed | because" ++ nl ++ ps "error"))].

(** A model reply: a JSON array of one classification, and its value. *)
Definition sample_reply : pystr :=
  ps "[{" ++ quoted "step" ++ ps ": " ++ quoted "Open page" ++ ps ", "
  ++ quoted "status" ++ ps ": " ++ quoted "Observed" ++ ps ", "
  ++ quoted "reasoning" ++ ps ": " ++ quoted "ok" ++ ps "}]".

Definition sample_reply_value : list json :=
  [JObj [(ps "step", JStr (ps "Open page")); (ps "status", JStr (ps "Observed"));
         (ps "reasoning", JStr (ps "ok"))]].

(** * Properties *)

(** ** String lemmas *)

Lemma pystr_eqb_eq (a b : pystr) : pystr_eqb a b = true <-> a = b.
Proof.
  revert b; induction a as [|x a IH]; intros [|y b]; simpl; try (split; congruence).
  rewrite andb_true_iff, Z.eqb_eq, IH; split; [intros [-> ->]; reflexivity|].
  intros H; injection H; auto.
Qed.

Lemma pystr_eqb_refl (a : pystr) : pystr_eqb a a = true.
Proof. apply pystr_eqb_eq; reflexivity. Qed.

Lemma startswith_nil (s : pystr) : startswith s [] = true.
Proof. destruct s; reflexivity. Qed.

Lemma replace_single (a b : Z) (s : pystr) :
  py_replace [a] [b] s = map (fun c => if c =? a then b else c) s.
Proof.
  unfold py_replace.
  induction s as [|c s IH]; [reflexivity|].
  simpl length; simpl replace_nonempty.
  rewrite startswith_nil, andb_true_r, Z.eqb_sym.
  simpl map; destruct (c =? a); simpl; rewrite IH; reflexivity.
Qed.

Lemma safe_text_map (r : pystr) :
  safe_text r = map (fun c => if c =? 124 then 45 else if c =? 10 then 32 else c) r.
Proof.
  unfold safe_text; rewrite !replace_single, map_map.
  apply map_ext; intros c.
  destruct (Z.eqb_spec c 124) as [->|]; [reflexivity|].
  destruct (c =? 10); reflexivity.
Qed.

Lemma safe_text_clean (r : pystr) : ~ In 124 (safe_text r) /\ ~ In 10 (safe_text r).
Proof.
  rewrite safe_text_map; split; intros H; apply in_map_iff in H as [c [Hc _]];
    destruct (Z.eqb_spec c 124); [lia| |lia|];
    destruct (Z.eqb_spec c 10); lia.
Qed.

Lemma lstrip_suffix (s : pystr) : exists p, s = p ++ lstrip s.
Proof.
  induction s as [|c s [p Hp]]; [exists []; reflexivity|].
  simpl; destruct (py_isspace c).
  - exists (c :: p); simpl; congruence.
  - exists []; reflexivity.
Qed.

Lemma lstrip_head (s : pystr) c t : lstrip s = c :: t -> py_isspace c = false.
Proof.
  induction s as [|d s IH]; simpl; [discriminate|].
  destruct (py_isspace d) eqn:E; [exact IH|].
  intros H; injection H as -> _; exact E.
Qed.

Lemma lstrip_nonspace (s : pystr) :
  (forall c t, s = c :: t -> py_isspace c = false) -> lstrip s = s.
Proof.
  destruct s as [|c t]; [reflexivity|]; intros H; simpl.
  rewrite (H c t eq_refl); reflexivity.
Qed.

Lemma lstrip_idem (s : pystr) : lstrip (lstrip s) = lstrip s.
Proof. apply lstrip_nonspace; intros c t H; exact (lstrip_head s c t H). Qed.

Lemma lstrip_length (s : pystr) : (length (lstrip s) <= length s)%nat.
Proof.
  destruct (lstrip_suffix s) as [p Hp].
  rewrite Hp at 2; rewrite length_app; lia.
Qed.

Lemma py_strip_length (s : pystr) : (length (py_strip s) <= length s)%nat.
Proof.
  unfold py_strip; rewrite length_rev.
  pose proof (lstrip_length s); pose proof (lstrip_length (rev (lstrip s))).
  rewrite length_rev in *; lia.
Qed.

Lemma py_strip_idem (s : pystr) : py_strip (py_strip s) = py_strip s.
Proof.
  unfold py_strip.
  set (a := lstrip s); set (b := lstrip (rev a)).
  assert (Hb : lstrip (rev b) = rev b).
  { apply lstrip_nonspace; intros c t Hct.
    destruct (lstrip_suffix (rev a)) as [p Hp]; fold b in Hp.
    assert (Ha : a = rev b ++ rev p).
    { rewrite <- (rev_involutive a), Hp, rev_app_distr; reflexivity. }
    rewrite Hct in Ha; exact (lstrip_head s c (t ++ rev p) Ha). }
  rewrite Hb, rev_involutive.
  unfold b at 1; rewrite lstrip_idem; reflexivity.
Qed.

Lemma py_lower_ascii (s : pystr) : is_ascii s = true -> py_lower s = map ascii_lower s.
Proof.
  unfold py_lower; generalize (@nil Z) as pre.
  induction s as [|c s IH]; intros pre H; [reflexivity|].
  simpl in H; apply andb_true_iff in H as [Hc Hs]; apply Z.ltb_lt in Hc.
  simpl lower_aux; rewrite (IH _ Hs); simpl map.
  unfold ascii_lower.
  destruct ((65 <=? c) && (c <=? 90)); [reflexivity|].
  replace (c <? 128) with true by (symmetry; apply Z.ltb_lt; lia); reflexivity.
Qed.

Lemma span_decimal_app (s : pystr) ds r : span_decimal s = (ds, r) -> s = ds ++ r.
Proof.
  revert ds r; induction s as [|c s IH]; simpl; intros ds r H.
  - injection H as <- <-; reflexivity.
  - destruct (py_isdecimal c).
    + destruct (span_decimal s) as [ds' r'] eqn:E; injection H as <- <-.
      simpl; f_equal; apply IH; reflexivity.
    + injection H as <- <-; reflexivity.
Qed.

Lemma strip_ordinal_clean (line : pystr) :
  starts_with_ordinal line = false -> strip_ordinal line = line.
Proof.
  unfold starts_with_ordinal, strip_ordinal.
  destruct (span_decimal line) as [[|d ds] [|c r]]; try reflexivity.
  intros H; rewrite H; reflexivity.
Qed.

Lemma strip_ordinal_shorter (line : pystr) :
  starts_with_ordinal line = true -> (length (strip_ordinal line) < length line)%nat.
Proof.
  unfold starts_with_ordinal, strip_ordinal.
  destruct (span_decimal line) as [ds r] eqn:E.
  apply span_decimal_app in E; subst line.
  destruct ds as [|d ds]; [discriminate|].
  destruct r as [|c r]; [discriminate|].
  intros H; rewrite H.
  pose proof (lstrip_length r); rewrite length_app; simpl; lia.
Qed.

Lemma span_decimal_decimals (ds r : pystr) :
  forallb py_isdecimal ds = true -> (forall c r', r = c :: r' -> py_isdecimal c = false) ->
  span_decimal (ds ++ r) = (ds, r).
Proof.
  intros Hd Hr; induction ds as [|d ds IH]; cbn [app span_decimal].
  - destruct r as [|c r']; [reflexivity|]; cbn [span_decimal]; rewrite (Hr c r' eq_refl); reflexivity.
  - cbn [forallb] in Hd; apply andb_prop in Hd as [Hd1 Hd2].
    rewrite Hd1, (IH Hd2); reflexivity.
Qed.

Lemma py_strip_lstrip (s : pystr) : py_strip (lstrip s) = py_strip s.
Proof. unfold py_strip; rewrite lstrip_idem; reflexivity. Qed.

(** C8.  Stripping the ordinal prefix of a plan line removes one prefix
    (decimal digits, a period and the whitespace after it) and trims the line:
    "1. Click button" becomes "Click button".  A line without such a prefix is
    only trimmed.  Stripping a second time changes nothing exactly when the
    result does not itself start with an ordinal prefix, so the transformation
    is not idempotent in general ("1. 2. Click" gives "2. Click", then
    "Click"). *)
Theorem step_of_line_idempotent_iff :
  step_of_line (ps "1. Click button") = ps "Click button" /\
  (forall ds r : pystr,
     ds <> [] -> forallb py_isdecimal ds = true ->
     step_of_line (ds ++ 46 :: r) = py_strip r) /\
  (forall s : pystr, starts_with_ordinal s = false -> step_of_line s = py_strip s) /\
  forall s : pystr,
    step_of_line (step_of_line s) = step_of_line s <->
    starts_with_ordinal (step_of_line s) = false.
Proof.
  split; [vm_compute; reflexivity|].
  split; [|split].
  - intros ds r Hne Hd; unfold step_of_line, strip_ordinal.
    rewrite (span_decimal_decimals ds (46 :: r) Hd
               (fun c r' E => ltac:(injection E as <- _; reflexivity))).
    destruct ds as [|d ds]; [contradiction|].
    cbn [Z.eqb Pos.eqb]; apply py_strip_lstrip.
  - intros s H; unfold step_of_line; rewrite (strip_ordinal_clean _ H); reflexivity.
  - intros s; set (x := step_of_line s); split.
    + intros H; destruct (starts_with_ordinal x) eqn:E; [|reflexivity].
      exfalso; apply strip_ordinal_shorter in E.
      pose proof (py_strip_length (strip_ordinal x)).
      unfold step_of_line at 1 in H; rewrite H in *; lia.
    + intros H; unfold step_of_line at 1; rewrite (strip_ordinal_clean _ H).
      unfold x, step_of_line; apply py_strip_idem.
Qed.

(** C9.  The result cell of a classification shows a glyph chosen from the
    lower-cased status (negative for "deviation", warning for "skipped", the
    positive marker for anything else) followed by the status in bold; for an
    ASCII status this is the case-insensitive choice of the specification. *)
Theorem status_glyph_rendered (item step : json) (st r : pystr)
    (Hstep : py_subscript item (ps "step") = Ok step)
    (Hst : py_subscript item (ps "status") = Ok (JStr st))
    (Hr : py_subscript item (ps "reasoning") = Ok (JStr r)) :
  let glyph := if pystr_eqb (py_lower st) (ps "skipped") then icon_warning
               else if pystr_eqb (py_lower st) (ps "deviation") then icon_cross
               else icon_check in
  report_row item =
    Ok (ps "| " ++ py_str step ++ ps " | " ++ glyph ++ ps " **" ++ st ++ ps "** | "
        ++ safe_text r ++ ps " |" ++ nl) /\
  (is_ascii st = true -> glyph = claimed_glyph st).
Proof.
  intros glyph; split.
  - unfold report_row; rewrite Hst; cbn [bind str_lower]; rewrite Hr; cbn [bind str_value].
    rewrite Hstep; cbn [bind]; reflexivity.
  - intros Ha; unfold glyph, claimed_glyph, ascii_ci_eq; rewrite (py_lower_ascii _ Ha).
    change (map ascii_lower (ps "Deviation")) with (ps "deviation").
    change (map ascii_lower (ps "Skipped")) with (ps "skipped").
    destruct (pystr_eqb (map ascii_lower st) (ps "skipped")) eqn:E1;
    destruct (pystr_eqb (map ascii_lower st) (ps "deviation")) eqn:E2; try reflexivity.
    apply pystr_eqb_eq in E1, E2; rewrite E1 in E2; discriminate.
Qed.

(** C10.  The reasoning cell of a rendered row is the reasoning text with every
    '|' replaced by '-' and every newline by a space, so it holds neither. *)
Theorem reasoning_cell_escaped (item step : json) (st r : pystr)
    (Hstep : py_subscript item (ps "step") = Ok step)
    (Hst : py_subscript item (ps "status") = Ok (JStr st))
    (Hr : py_subscript item (ps "reasoning") = Ok (JStr r)) :
  exists lead,
    report_row item = Ok (lead ++ safe_text r ++ ps " |" ++ nl) /\
    safe_text r = map (fun c => if c =? 124 then 45 else if c =? 10 then 32 else c) r /\
    ~ In 124 (safe_text r) /\ ~ In 10 (safe_text r).
Proof.
  unfold report_row; rewrite Hst; cbn [bind str_lower]; rewrite Hr; cbn [bind str_value].
  rewrite Hstep; cbn [bind].
  set (glyph := if pystr_eqb (py_lower st) (ps "skipped") then icon_warning
                else if pystr_eqb (py_lower st) (ps "deviation") then icon_cross
                else icon_check).
  exists (ps "| " ++ py_str step ++ ps " | " ++ glyph ++ ps " **" ++ st ++ ps "** | ").
  split; [|split; [apply safe_text_map | apply safe_text_clean]].
  rewrite <- !app_assoc; reflexivity.
Qed.

(** ** Rendering *)

Lemma report_rows_ok (items : list json) (md : pystr) :
  report_rows items = Ok md <->
  exists rows, Forall2 (fun it r => report_row it = Ok r) items rows /\ md = concat rows.
Proof.
  revert md; induction items as [|it items IH]; intros md; simpl.
  - split.
    + intros H; injection H as <-; exists []; split; [constructor | reflexivity].
    + intros [rows [H ->]]; inversion H; reflexivity.
  - destruct (report_row it) as [row|e] eqn:Er; simpl.
    + destruct (report_rows items) as [rest|e] eqn:Es; simpl.
      * split.
        -- intros H; injection H as <-.
           destruct (proj1 (IH rest) eq_refl) as [rows [Hf ->]].
           exists (row :: rows); split; [constructor; assumption | reflexivity].
        -- intros [rows [Hf ->]]; inversion Hf as [|? r ? rows' Hr Hf']; subst.
           rewrite Er in Hr; injection Hr as <-.
           pose proof (proj2 (IH (concat rows')) (ex_intro _ rows' (conj Hf' eq_refl))) as Hx.
           injection Hx as ->; reflexivity.
      * split; [discriminate|].
        intros [rows [Hf ->]]; inversion Hf as [|? r ? rows' Hr Hf']; subst.
        pose proof (proj2 (IH (concat rows')) (ex_intro _ rows' (conj Hf' eq_refl))) as Hx.
        discriminate.
    + split; [discriminate|].
      intros [rows [Hf ->]]; inversion Hf as [|? r ? rows' Hr Hf']; subst; congruence.
Qed.

(** C3.  The rendered report is the fixed header followed by exactly one row
    per element of the classification list it is given, in that list's order;
    the list is the model's parsed reply, so the number and order of rows follow
    the reply, not the plan. *)
Theorem report_one_row_per_classification (items : list json) (md : pystr) :
  reporting_node (JArr items) = Ok md <->
  exists rows, Forall2 (fun it r => report_row it = Ok r) items rows /\
               md = report_header ++ concat rows.
Proof.
  unfold reporting_node; cbn [py_iter bind].
  destruct (report_rows items) as [x|e] eqn:E; cbn [bind].
  - destruct (proj1 (report_rows_ok items x) E) as [rows [Hf ->]]; split.
    + intros H; injection H as <-; exists rows; split; [exact Hf | reflexivity].
    + intros [rows' [Hf' ->]].
      assert (Hx : report_rows items = Ok (concat rows'))
        by (apply report_rows_ok; exists rows'; split; [exact Hf' | reflexivity]).
      rewrite E in Hx; injection Hx as ->; reflexivity.
  - split; [discriminate|].
    intros [rows [Hf ->]].
    assert (Hx : report_rows items = Ok (concat rows))
      by (apply report_rows_ok; exists rows; split; [exact Hf | reflexivity]).
    congruence.
Qed.

(** ** Log parsing *)

Lemma evidence_loop_spec (evs : list json) (i : nat) :
  Forall is_object evs ->
  evidence_loop i evs =
  Ok (map (fun ie => mk_evidence (fst ie) (ps "observation")
                       (describe (match field (snd ie) (ps "content") with
                                  | Some c => c
                                  | None => JStr []
                                  end)))
          (filter (fun ie => get_is (field (snd ie) (ps "name")) (ps "user"))
                  (combine (seq i (length evs)) evs))).
Proof.
  revert i; induction evs as [|e evs IH]; intros i Hall; [reflexivity|].
  inversion Hall as [|? ? [kvs ->] Hrest]; subst.
  cbn [evidence_loop py_get bind length seq combine filter field fst snd].
  destruct (get_is (obj_get (ps "name") kvs) (ps "user")).
  - cbn [bind]; rewrite (IH (S i) Hrest); reflexivity.
  - exact (IH (S i) Hrest).
Qed.

Lemma in_combine_seq_nth {A} (l : list A) (k i : nat) (x : A) :
  In (i, x) (combine (seq k (length l)) l) -> nth_error l (i - k) = Some x /\ (k <= i)%nat.
Proof.
  revert k; induction l as [|y l IH]; intros k H; [destruct H|].
  destruct H as [H|H].
  - injection H as <- <-; rewrite Nat.sub_diag; split; [reflexivity | lia].
  - destruct (IH (S k) H) as [Hn Hle].
    replace (i - k)%nat with (S (i - S k)) by lia; split; [exact Hn | lia].
Qed.

Lemma plan_loop_spec (evs : list json) :
  Forall is_object evs -> Forall plan_field_is_text evs ->
  plan_loop evs = Ok (plan_of_first_text evs).
Proof.
  unfold plan_of_first_text.
  induction evs as [|e evs IH]; intros Hobj Htext; [reflexivity|].
  inversion Hobj as [|? ? [kvs ->] Hobj']; subst.
  inversion Htext as [|? ? He Htext']; subst.
  specialize (IH Hobj' Htext').
  cbn [plan_loop py_get bind first_some].
  unfold plan_text_of; cbn [field].
  destruct (get_is (obj_get (ps "name") kvs) (ps "planner_agent")) eqn:En; [|exact IH].
  cbn [bind].
  destruct (obj_get (ps "content") kvs) as [c|] eqn:Ec; [|exact IH].
  destruct c as [| | | | | |ckvs]; try exact IH.
  destruct (obj_get (ps "plan") ckvs) as [v|] eqn:Ep; [|exact IH].
  destruct (truthy v) eqn:Et.
  - destruct (He ckvs v En Ec Ep Et) as [t ->].
    simpl in Et; destruct t as [|c t]; [discriminate|reflexivity].
  - destruct v; try exact IH.
    simpl in Et; destruct s; [exact IH | discriminate].
Qed.

(** C4.  [extract_plan] takes the plan from the first "planner_agent" event
    whose content is a mapping with a non-empty [plan] text (events whose plan
    is missing or empty are passed over): the text is split on newlines, blank
    lines are dropped, and each line loses its ordinal prefix and surrounding
    whitespace.  With no such event the plan is empty. *)
Theorem extract_plan_first_nonempty (logs : json) (evs : list json)
    (Htarget : target_logs logs = JArr evs)
    (Hobj : Forall is_object evs)
    (Htext : Forall plan_field_is_text evs) :
  extract_plan logs = Ok (plan_of_first_text evs).
Proof.
  destruct logs as [| | | | |l|kvs]; cbn [target_logs] in Htarget;
    try (injection Htarget as <-; reflexivity).
  - injection Htarget as ->; exact (plan_loop_spec evs Hobj Htext).
  - cbn [extract_plan].
    destruct (obj_get (ps "planner_agent") kvs) as [t|]; [subst t|].
    + cbn [py_iter bind]; exact (plan_loop_spec evs Hobj Htext).
    + injection Htarget as <-; reflexivity.
Qed.

(** C5.  [extract_evidence] yields, in order, one observation record for each
    event named "user", with the event's position in the target sequence as its
    id and its content as [json.dumps] text (a mapping) or its [str] form. *)
Theorem extract_evidence_user_events (logs : json) (evs : list json)
    (Htarget : target_logs logs = JArr evs)
    (Hobj : Forall is_object evs)
    (Hcontent : Forall (fun e => get_is (field e (ps "name")) (ps "user") = true ->
                                 field e (ps "content") <> None) evs) :
  extract_evidence logs = Ok (evidence_as_claimed evs).
Proof.
  unfold extract_evidence; rewrite Htarget; cbn [py_iter bind].
  rewrite (evidence_loop_spec evs 0 Hobj); f_equal.
  unfold evidence_as_claimed; apply map_ext_in.
  intros [i e] Hin; apply filter_In in Hin as [Hin Hu]; cbn [fst snd] in *.
  apply in_combine_r in Hin.
  rewrite Forall_forall in Hcontent; specialize (Hcontent e Hin Hu).
  destruct (field e (ps "content")) as [c|]; [|congruence].
  destruct c; reflexivity.
Qed.

Lemma plan_loop_skip_nameless (evs1 evs2 : list json) (kvs : list (pystr * json)) :
  obj_get (ps "name") kvs = None ->
  plan_loop (evs1 ++ JObj kvs :: evs2) = plan_loop (evs1 ++ evs2).
Proof.
  intros Hn; induction evs1 as [|e evs1 IH].
  - simpl; rewrite Hn; reflexivity.
  - destruct e; try reflexivity.
    cbn [app plan_loop py_get bind]; rewrite IH; reflexivity.
Qed.

Lemma evidence_loop_objects_ok (evs : list json) (i : nat) :
  Forall is_object evs -> exists recs, evidence_loop i evs = Ok recs.
Proof. intros H; eexists; exact (evidence_loop_spec evs i H). Qed.

Lemma evidence_loop_user_without_content (evs1 evs2 : list json) kvs (i : nat) :
  Forall is_object evs1 -> Forall is_object evs2 ->
  obj_get (ps "name") kvs = Some (JStr (ps "user")) ->
  obj_get (ps "content") kvs = None ->
  exists recs, evidence_loop i (evs1 ++ JObj kvs :: evs2) = Ok recs /\
    In (mk_evidence (i + length evs1) (ps "observation") []) recs.
Proof.
  intros H1 H2 Hn Hc; revert i; induction evs1 as [|e evs1 IH]; intros i.
  - destruct (evidence_loop_objects_ok evs2 (S i) H2) as [recs Hr].
    cbn [app evidence_loop py_get bind]; rewrite Hn; cbn [get_is]; rewrite pystr_eqb_refl.
    cbn [bind]; rewrite Hc, Hr; cbn [bind].
    eexists; split; [reflexivity|]; left; rewrite Nat.add_0_r; reflexivity.
  - inversion H1 as [|? ? [kvs' ->] H1']; subst.
    destruct (IH H1' (S i)) as [recs [Hr Hin]].
    cbn [app evidence_loop py_get bind].
    destruct (get_is (obj_get (ps "name") kvs') (ps "user")); cbn [bind].
    + rewrite Hr; cbn [bind]; eexists; split; [reflexivity|]; right.
      cbn [length]; rewrite Nat.add_succ_r; exact Hin.
    + eexists; split; [exact Hr|]; cbn [length]; rewrite Nat.add_succ_r; exact Hin.
Qed.

Lemma evidence_loop_non_mapping (evs1 evs2 : list json) (e : json) (i : nat) :
  Forall is_object evs1 -> (forall kvs, e <> JObj kvs) ->
  evidence_loop i (evs1 ++ e :: evs2) = Raise AttributeError.
Proof.
  intros H1 He; revert i; induction evs1 as [|e1 evs1 IH]; intros i.
  - destruct e; try reflexivity; exfalso; exact (He _ eq_refl).
  - inversion H1 as [|? ? [kvs' ->] H1']; subst.
    cbn [app evidence_loop py_get bind].
    destruct (get_is (obj_get (ps "name") kvs') (ps "user")); cbn [bind];
      rewrite (IH H1' (S i)); reflexivity.
Qed.

Lemma plan_loop_non_mapping (evs1 evs2 : list json) (e : json) :
  Forall is_object evs1 -> first_some plan_text_of evs1 = None ->
  (forall kvs, e <> JObj kvs) ->
  plan_loop (evs1 ++ e :: evs2) = Raise AttributeError.
Proof.
  intros H1 Hf He; induction evs1 as [|e1 evs1 IH].
  - destruct e; try reflexivity; exfalso; exact (He _ eq_refl).
  - inversion H1 as [|? ? [kvs' ->] H1']; subst.
    cbn [first_some] in Hf.
    destruct (plan_text_of (JObj kvs')) eqn:Et; [discriminate|].
    specialize (IH H1' Hf).
    unfold plan_text_of in Et; cbn [field] in Et.
    cbn [app plan_loop py_get bind].
    destruct (get_is (obj_get (ps "name") kvs') (ps "planner_agent")); [|exact IH].
    cbn [bind].
    destruct (obj_get (ps "content") kvs') as [c|]; [|exact IH].
    destruct c as [| | | | | |ckvs]; try exact IH.
    destruct (obj_get (ps "plan") ckvs) as [v|].
    + destruct (truthy v) eqn:Tv; [|exact IH].
      destruct v; try reflexivity.
      destruct s as [|x s]; [discriminate | discriminate].
    + exact IH.
Qed.

Lemma plan_loop_returns_early (evs1 evs2 : list json) (t : pystr) :
  Forall is_object evs1 -> Forall plan_field_is_text evs1 ->
  first_some plan_text_of evs1 = Some t ->
  plan_loop (evs1 ++ evs2) = Ok (plan_steps t).
Proof.
  intros H1 Ht Hf; induction evs1 as [|e1 evs1 IH]; [discriminate|].
  inversion H1 as [|? ? [kvs' ->] H1']; subst.
  inversion Ht as [|? ? He Ht']; subst.
  cbn [first_some] in Hf.
  assert (Hrest : plan_text_of (JObj kvs') = None -> plan_loop (evs1 ++ evs2) = Ok (plan_steps t))
    by (intros Hn; rewrite Hn in Hf; exact (IH H1' Ht' Hf)).
  unfold plan_text_of in Hf, Hrest; cbn [field] in Hf, Hrest.
  cbn [app plan_loop py_get bind].
  destruct (get_is (obj_get (ps "name") kvs') (ps "planner_agent")) eqn:En;
    [|exact (Hrest eq_refl)].
  cbn [bind].
  destruct (obj_get (ps "content") kvs') as [c|] eqn:Ec; [|exact (Hrest eq_refl)].
  destruct c as [| | | | | |ckvs]; try exact (Hrest eq_refl).
  destruct (obj_get (ps "plan") ckvs) as [v|] eqn:Ep; [|exact (Hrest eq_refl)].
  destruct (truthy v) eqn:Tv.
  - destruct (He ckvs v En Ec Ep Tv) as [t' ->].
    destruct t' as [|x t']; [discriminate|].
    injection Hf as <-; reflexivity.
  - destruct v; try exact (Hrest eq_refl).
    destruct s as [|x s]; [exact (Hrest eq_refl) | discriminate].
Qed.

(** C6.  A document that is neither a mapping nor a sequence gives an empty
    plan and no evidence.  Within the target sequence, a mapping event without a
    name is passed over by both functions and never raises; but a "user" event
    without content is not skipped, wherever it stands (it yields a record with
    its position and an empty description).  An event that is not a mapping
    makes [extract_evidence] raise [AttributeError]; it makes [extract_plan]
    raise [AttributeError] too, unless an earlier "planner_agent" event has
    already given a non-empty plan text, in which case the plan is returned
    before the event is reached. *)
Theorem extraction_malformed_inputs :
  (forall logs : json,
     (forall kvs, logs <> JObj kvs) -> (forall l, logs <> JArr l) ->
     extract_plan logs = Ok [] /\ extract_evidence logs = Ok []) /\
  (forall evs1 evs2 kvs,
     obj_get (ps "name") kvs = None ->
     extract_plan (JArr (evs1 ++ JObj kvs :: evs2)) = extract_plan (JArr (evs1 ++ evs2))) /\
  (forall evs : list json,
     Forall is_object evs ->
     exists recs, extract_evidence (JArr evs) = Ok recs /\
       forall r, In r recs ->
         exists e, nth_error evs (ev_id r) = Some e /\
                   get_is (field e (ps "name")) (ps "user") = true) /\
  (forall evs1 evs2 kvs,
     Forall is_object evs1 -> Forall is_object evs2 ->
     obj_get (ps "name") kvs = Some (JStr (ps "user")) ->
     obj_get (ps "content") kvs = None ->
     exists recs, extract_evidence (JArr (evs1 ++ JObj kvs :: evs2)) = Ok recs /\
       In (mk_evidence (length evs1) (ps "observation") []) recs) /\
  (forall evs1 e evs2,
     Forall is_object evs1 -> (forall kvs, e <> JObj kvs) ->
     extract_evidence (JArr (evs1 ++ e :: evs2)) = Raise AttributeError) /\
  (forall evs1 e evs2,
     Forall is_object evs1 -> first_some plan_text_of evs1 = None ->
     (forall kvs, e <> JObj kvs) ->
     extract_plan (JArr (evs1 ++ e :: evs2)) = Raise AttributeError) /\
  (forall evs1 evs2 t,
     Forall is_object evs1 -> Forall plan_field_is_text evs1 ->
     first_some plan_text_of evs1 = Some t ->
     extract_plan (JArr (evs1 ++ evs2)) = Ok (plan_steps t)).
Proof.
  split; [|split; [|split; [|split; [|split; [|split]]]]].
  - intros logs H1 H2.
    destruct logs as [| | | | |l|kvs]; try (split; reflexivity);
      [exfalso; exact (H2 l eq_refl) | exfalso; exact (H1 kvs eq_refl)].
  - intros evs1 evs2 kvs Hn; apply plan_loop_skip_nameless; exact Hn.
  - intros evs Hobj; unfold extract_evidence; cbn [target_logs py_iter bind].
    rewrite (evidence_loop_spec evs 0 Hobj).
    eexists; split; [reflexivity|].
    intros r Hr; apply in_map_iff in Hr as [[i e] [<- Hin]].
    apply filter_In in Hin as [Hin Hu]; cbn [fst snd ev_id] in *.
    apply in_combine_seq_nth in Hin as [Hn _]; rewrite Nat.sub_0_r in Hn.
    exists e; split; assumption.
  - intros evs1 evs2 kvs H1 H2 Hn Hc; unfold extract_evidence; cbn [target_logs py_iter bind].
    exact (evidence_loop_user_without_content evs1 evs2 kvs 0 H1 H2 Hn Hc).
  - intros evs1 e evs2 H1 He; unfold extract_evidence; cbn [target_logs py_iter bind].
    exact (evidence_loop_non_mapping evs1 evs2 e 0 H1 He).
  - intros evs1 e evs2 H1 Hf He; exact (plan_loop_non_mapping evs1 evs2 e H1 Hf He).
  - intros evs1 evs2 t H1 Ht Hf; exact (plan_loop_returns_early evs1 evs2 t H1 Ht Hf).
Qed.

(** ** The analysis and reporting nodes after the model call *)

Lemma report_row_succeeds (item : json) :
  (exists row, report_row item = Ok row) <-> classification_ok item = true.
Proof.
  unfold report_row.
  destruct item as [| | | | | |kvs]; cbn [py_subscript bind classification_ok];
    try (split; [intros [? H]; discriminate | intros H; discriminate]).
  destruct (obj_get (ps "status") kvs) as [st|]; cbn [bind andb];
    [|split; [intros [? H]; discriminate | intros H; discriminate]].
  destruct st; cbn [str_lower bind andb];
    try (split; [intros [? H]; discriminate | intros H; discriminate]).
  destruct (obj_get (ps "reasoning") kvs) as [r|]; cbn [bind andb];
    [|split; [intros [? H]; discriminate | intros H; discriminate]].
  destruct r; cbn [str_value bind andb];
    try (split; [intros [? H]; discriminate | intros H; discriminate]).
  destruct (obj_get (ps "step") kvs) as [step|]; cbn [bind].
  - split; [reflexivity | intros _; eexists; reflexivity].
  - split; [intros [? H]; discriminate | intros H; discriminate].
Qed.

Lemma report_rows_succeeds (items : list json) :
  (exists md, report_rows items = Ok md) <-> forallb classification_ok items = true.
Proof.
  induction items as [|it items IH]; cbn [report_rows forallb].
  - split; [reflexivity | intros _; eexists; reflexivity].
  - rewrite andb_true_iff, <- report_row_succeeds, <- IH.
    destruct (report_row it) as [row|e]; cbn [bind].
    + destruct (report_rows items) as [md|e]; cbn [bind].
      * split; [intros _; split; eexists; reflexivity | intros _; eexists; reflexivity].
      * split; [intros [? H]; discriminate | intros [_ [? H]]; discriminate].
    + split; [intros [? H]; discriminate | intros [[? H] _]; discriminate].
Qed.

Lemma reporting_node_succeeds (v : json) :
  (exists md, reporting_node v = Ok md) <-> renderable v = true.
Proof.
  unfold reporting_node.
  destruct v as [| | | | s |items|kvs]; cbn [py_iter bind renderable];
    try (split; [intros [? H]; discriminate | discriminate]).
  - destruct s as [|c s]; cbn [map report_rows bind].
    + split; [reflexivity | intros _; eexists; reflexivity].
    + split; [intros [? H]; discriminate | discriminate].
  - rewrite <- report_rows_succeeds.
    destruct (report_rows items); cbn [bind].
    + split; intros _; eexists; reflexivity.
    + split; intros [? H]; discriminate.
  - destruct kvs as [|kv kvs]; cbn [map report_rows bind].
    + split; [reflexivity | intros _; eexists; reflexivity].
    + split; [intros [? H]; discriminate | discriminate].
Qed.

(** C1.  When [json.loads] raises [JSONDecodeError] on the reply (after it is
    trimmed and its code fences removed), the analysis step does not raise: it
    returns a single fallback classification with step "Error parsing LLM
    output", status "Deviation", empty evidence, and as reasoning the trimmed,
    fence-stripped reply text. *)
Theorem parse_failure_fallback (response : pystr)
    (Hdec : json_loads (strip_fences response) = Raise JSONDecodeError) :
  parse_response response =
  Ok (JArr [JObj [(ps "step", JStr (ps "Error parsing LLM output"));
                  (ps "status", JStr (ps "Deviation"));
                  (ps "reasoning", JStr (strip_fences response));
                  (ps "evidence", JStr [])]]).
Proof. unfold parse_response; rewrite Hdec; reflexivity. Qed.

(** C2.  Once the model has replied, parsing and rendering complete with a
    report exactly when [json.loads] of the stripped reply raises
    [JSONDecodeError] (the fallback row is rendered) or returns a value the
    reporting loop can print: a list of mappings each with a [str] status, a
    [str] reasoning and a step (or an empty mapping or string).  Any other
    decoded reply, and any other decoder error, raises. *)
Theorem after_invoke_succeeds (response : pystr) :
  (exists md, after_invoke response = Ok md) <->
  json_loads (strip_fences response) = Raise JSONDecodeError \/
  exists v, json_loads (strip_fences response) = Ok v /\ renderable v = true.
Proof.
  unfold after_invoke, parse_response.
  destruct (json_loads (strip_fences response)) as [v|e]; cbn [bind].
  - rewrite reporting_node_succeeds; split.
    + intros H; right; exists v; split; [reflexivity | exact H].
    + intros [H|[v' [H Hr]]]; [discriminate|]; injection H as <-; exact Hr.
  - destruct e; cbn [bind];
      try (split; [intros [? H]; discriminate | intros [H|[? [H _]]]; discriminate]).
    split; [intros _; left; reflexivity|].
    intros _; apply reporting_node_succeeds; reflexivity.
Qed.

(** ** Whitespace around a JSON document *)

Lemma json_ws_cases (c : Z) : json_ws c = true -> c = 32 \/ c = 9 \/ c = 10 \/ c = 13.
Proof.
  unfold json_ws; intros H.
  repeat rewrite orb_true_iff in H; rewrite !Z.eqb_eq in H; tauto.
Qed.

Ltac ws_cases c Hc :=
  apply json_ws_cases in Hc; destruct Hc as [ -> | [ -> | [ -> | -> ]]].

Lemma padd_nil {A} (p : PR A) : padd [] p = p.
Proof. destruct p; cbn; rewrite ?app_nil_r; reflexivity. Qed.

Lemma padd_padd {A} (w1 w2 : pystr) (p : PR A) : padd w2 (padd w1 p) = padd (w1 ++ w2) p.
Proof. destruct p; cbn; rewrite ?app_assoc; reflexivity. Qed.

Lemma pcons_padd (u : Z) (w : pystr) (p : PR pystr) : pcons u (padd w p) = padd w (pcons u p).
Proof. destruct p; reflexivity. Qed.

Lemma pmap_padd {A B} (f : A -> B) (w : pystr) (p : PR A) : pmap f (padd w p) = padd w (pmap f p).
Proof. destruct p; reflexivity. Qed.

Lemma hex4_none_4 a b c d : hex_val d = None -> hex4 a b c d = None.
Proof.
  intros H; unfold hex4; rewrite H.
  destruct (hex_val a), (hex_val b), (hex_val c); reflexivity.
Qed.

Lemma skip_ws_snoc (c : Z) (s : pystr) : json_ws c = true ->
  skip_ws (s ++ [c]) = match skip_ws s with [] => [] | x :: y => x :: y ++ [c] end.
Proof.
  intros Hc; induction s as [|x s IH]; cbn.
  - rewrite Hc; reflexivity.
  - destruct (json_ws x); [exact IH | reflexivity].
Qed.

Lemma skip_ws_app_ws (w s : pystr) : all_ws w = true -> skip_ws (w ++ s) = skip_ws s.
Proof.
  unfold all_ws in *.
  induction w as [|c w IH]; cbn; [reflexivity|].
  intros H; apply andb_true_iff in H as [H1 H2]; rewrite H1; exact (IH H2).
Qed.

Lemma skip_ws_all (w : pystr) : all_ws w = true -> skip_ws w = [].
Proof. intros H; rewrite <- (app_nil_r w), skip_ws_app_ws by exact H; reflexivity. Qed.

Lemma skip_ws_nil_all (s : pystr) : skip_ws s = [] -> all_ws s = true.
Proof.
  unfold all_ws in *.
  induction s as [|c s IH]; cbn; [reflexivity|].
  destruct (json_ws c); [exact IH | discriminate].
Qed.

Lemma skip_ws_split (s : pystr) : exists w, all_ws w = true /\ s = w ++ skip_ws s.
Proof.
  unfold all_ws in *.
  induction s as [|c s [w [Hw Hs]]]; cbn; [exists []; split; reflexivity|].
  destruct (json_ws c) eqn:Hc.
  - exists (c :: w); cbn; rewrite Hc, Hw; split; [reflexivity | rewrite <- Hs; reflexivity].
  - exists []; split; reflexivity.
Qed.

Lemma skip_ws_length (s : pystr) : (length (skip_ws s) <= length s)%nat.
Proof.
  induction s as [|c s IH]; cbn; [lia|].
  destruct (json_ws c); cbn; lia.
Qed.

Lemma startswith_snoc (c : Z) (s p : pystr) :
  json_ws c = true -> forallb (fun x => negb (json_ws x)) p = true ->
  startswith (s ++ [c]) p = startswith s p.
Proof.
  intros Hc; revert s; induction p as [|x p IH]; intros s Hp; [rewrite !startswith_nil; reflexivity|].
  cbn in Hp; apply andb_true_iff in Hp as [Hx Hp].
  destruct s as [|y s]; cbn.
  - destruct (Z.eqb_spec x c) as [->|]; [rewrite Hc in Hx; discriminate | reflexivity].
  - rewrite IH by exact Hp; reflexivity.
Qed.

Lemma startswith_length (s p : pystr) : startswith s p = true -> (length p <= length s)%nat.
Proof.
  revert s; induction p as [|x p IH]; intros s H; cbn; [lia|].
  destruct s as [|y s]; [discriminate|]; cbn in H |- *.
  apply andb_true_iff in H as [_ H]; specialize (IH s H); lia.
Qed.

Lemma startswith_app_skipn (s p : pystr) : startswith s p = true -> s = p ++ skipn (length p) s.
Proof.
  revert s; induction p as [|x p IH]; intros s H; [reflexivity|].
  destruct s as [|y s]; [discriminate|]; cbn in H |- *.
  apply andb_true_iff in H as [Hx H]; apply Z.eqb_eq in Hx as ->.
  rewrite <- (IH s H); reflexivity.
Qed.

Lemma skipn_snoc {A} (k : nat) (s : list A) (c : A) :
  (k <= length s)%nat -> skipn k (s ++ [c]) = skipn k s ++ [c].
Proof.
  intros H; rewrite skipn_app.
  replace (k - length s)%nat with O by lia; reflexivity.
Qed.

Lemma span_digits_snoc (c : Z) (s : pystr) : json_ws c = true ->
  span_digits (s ++ [c]) = let (ds, r) := span_digits s in (ds, r ++ [c]).
Proof.
  intros Hc; induction s as [|x s IH]; cbn.
  - ws_cases c Hc; reflexivity.
  - destruct (is_digit x); [rewrite IH; destruct (span_digits s); reflexivity | reflexivity].
Qed.

Lemma lex_int_part_snoc (c : Z) (s : pystr) : json_ws c = true ->
  lex_int_part (s ++ [c]) =
  match lex_int_part s with Some (ip, r) => Some (ip, r ++ [c]) | None => None end.
Proof.
  intros Hc; destruct s as [|x t]; cbn [app lex_int_part].
  - ws_cases c Hc; reflexivity.
  - destruct ((49 <=? x) && (x <=? 57)).
    + rewrite span_digits_snoc by exact Hc; destruct (span_digits t); reflexivity.
    + destruct (x =? 48); reflexivity.
Qed.

Lemma lex_frac_snoc (c : Z) (s : pystr) : json_ws c = true ->
  lex_frac (s ++ [c]) = let (fr, r) := lex_frac s in (fr, r ++ [c]).
Proof.
  intros Hc; destruct s as [|x [|y t]]; cbn [app lex_frac].
  - reflexivity.
  - assert (Hd : is_digit c = false) by (ws_cases c Hc; reflexivity).
    rewrite Hd, andb_false_r; reflexivity.
  - destruct ((x =? 46) && is_digit y); [|reflexivity].
    rewrite span_digits_snoc by exact Hc; destruct (span_digits t); reflexivity.
Qed.

Lemma lex_exp_snoc (c : Z) (s : pystr) : json_ws c = true ->
  lex_exp (s ++ [c]) = let (ex, r) := lex_exp s in (ex, r ++ [c]).
Proof.
  intros Hc; destruct s as [|e t]; cbn [app lex_exp].
  - ws_cases c Hc; reflexivity.
  - destruct ((e =? 101) || (e =? 69)); [|reflexivity].
    destruct t as [|x t]; cbn [app].
    + ws_cases c Hc; reflexivity.
    + destruct ((x =? 45) || (x =? 43)); cbn [app].
      * rewrite span_digits_snoc by exact Hc; destruct (span_digits t) as [[|d ds] r]; reflexivity.
      * change (x :: t ++ [c]) with ((x :: t) ++ [c]).
        rewrite span_digits_snoc by exact Hc; destruct (span_digits (x :: t)) as [[|d ds] r]; reflexivity.
Qed.

Lemma pnumber_snoc (c : Z) (s : pystr) : json_ws c = true ->
  pnumber (s ++ [c]) = padd [c] (pnumber s).
Proof.
  intros Hc; destruct s as [|x t]; [ws_cases c Hc; reflexivity|].
  unfold pnumber; cbn [app].
  assert (Hs1 : forall s1 sign,
    match lex_int_part (s1 ++ [c]) with
    | None => PErr JSONDecodeError
    | Some (ip, r1) =>
        let '(fr, r2) := lex_frac r1 in
        let '(ex, r3) := lex_exp r2 in
        match fr, ex with
        | [], [] =>
            if (0 <? rt_int_max_str_digits rt)%nat && (rt_int_max_str_digits rt <? length ip)%nat
            then PErr ValueError
            else POk (JInt (match sign with [] => dec_value ip | _ => - dec_value ip end)) r1
        | _, _ => POk (JFloat (sign ++ ip ++ fr ++ ex)) r3
        end
    end =
    padd [c] (match lex_int_part s1 with
    | None => PErr JSONDecodeError
    | Some (ip, r1) =>
        let '(fr, r2) := lex_frac r1 in
        let '(ex, r3) := lex_exp r2 in
        match fr, ex with
        | [], [] =>
            if (0 <? rt_int_max_str_digits rt)%nat && (rt_int_max_str_digits rt <? length ip)%nat
            then PErr ValueError
            else POk (JInt (match sign with [] => dec_value ip | _ => - dec_value ip end)) r1
        | _, _ => POk (JFloat (sign ++ ip ++ fr ++ ex)) r3
        end
    end)).
  { intros s1 sign; rewrite lex_int_part_snoc by exact Hc.
    destruct (lex_int_part s1) as [[ip r1]|]; [|reflexivity].
    rewrite lex_frac_snoc by exact Hc; destruct (lex_frac r1) as [fr r2].
    rewrite lex_exp_snoc by exact Hc; destruct (lex_exp r2) as [ex r3].
    destruct fr, ex; try reflexivity.
    destruct (_ && _); reflexivity. }
  destruct (x =? 45).
  - exact (Hs1 t [45]).
  - exact (Hs1 (x :: t) []).
Qed.

Ltac pstring_step IH :=
  match goal with
  | |- pcons ?u _ = padd _ (pcons ?u (pstring ?s)) =>
      rewrite <- pcons_padd; f_equal; apply (IH s); cbn [length] in *; lia
  end.

Lemma pstring_snoc (c : Z) : json_ws c = true ->
  forall s, pstring (s ++ [c]) = padd [c] (pstring s).
Proof.
  intros Hc.
  assert (Hhex : hex_val c = None) by (ws_cases c Hc; reflexivity).
  assert (Hn : forall k s, (length s < k)%nat -> pstring (s ++ [c]) = padd [c] (pstring s)).
  2: { intros s; apply (Hn (S (length s))); lia. }
  induction k as [|k IH]; intros s Hlen; [lia|].
  destruct s as [|c0 t]; [ws_cases c Hc; reflexivity|].
  cbn [app pstring].
  destruct (c0 =? 34); [reflexivity|].
  destruct (c0 =? 92).
  2: { destruct (c0 <? 32); [reflexivity|]. pstring_step IH. }
  destruct t as [|e t']; [ws_cases c Hc; reflexivity|].
  cbn [app].
  destruct (e =? 117).
  2: { destruct (simple_escape e); [pstring_step IH | reflexivity]. }
  destruct t' as [|a [|b [|c1 [|d r]]]]; cbn [app]; try reflexivity.
  - rewrite hex4_none_4 by exact Hhex; reflexivity.
  - destruct (hex4 a b c1 d) as [u|]; [|reflexivity].
    destruct (is_high_surrogate u); [|pstring_step IH].
    destruct r as [|x [|y [|a2 [|b2 [|c2 [|d2 r2]]]]]]; cbn [app]; try pstring_step IH.
    + destruct ((x =? 92) && (y =? 117)) eqn:Exy; [|pstring_step IH].
      rewrite hex4_none_4 by exact Hhex.
      apply andb_true_iff in Exy as [Ex Ey]; apply Z.eqb_eq in Ex, Ey; subst x y.
      reflexivity.
    + destruct ((x =? 92) && (y =? 117)); [|pstring_step IH].
      destruct (hex4 a2 b2 c2 d2) as [u2|]; [|reflexivity].
      destruct (is_low_surrogate u2); pstring_step IH.
Qed.

Lemma scan_once_nil_cases (n d : nat) :
  scan_once n d [] = PFuel \/ scan_once n d [] = PErr JSONDecodeError.
Proof. destruct n; [left | right]; reflexivity. Qed.

Lemma parse_elems_nil (w : pystr) (n d : nat) acc :
  parse_elems n d [] acc = padd w (parse_elems n d [] acc).
Proof. destruct n as [|[|n]]; reflexivity. Qed.

Lemma parse_members_nil (w : pystr) (n d : nat) acc :
  parse_members n d [] acc = padd w (parse_members n d [] acc).
Proof. destruct n; reflexivity. Qed.

Ltac literal_step Hc s lit :=
  rewrite (startswith_snoc _ s lit Hc) by reflexivity;
  let E := fresh "E" in
  destruct (startswith s lit) eqn:E;
  [cbn [padd]; rewrite skipn_snoc; [reflexivity | apply startswith_length in E; exact E]|].

Lemma scan_snoc (c : Z) : json_ws c = true -> forall n,
  (forall d s, scan_once n d (s ++ [c]) = padd [c] (scan_once n d s)) /\
  (forall d s acc, parse_elems n d (s ++ [c]) acc = padd [c] (parse_elems n d s acc)) /\
  (forall d s acc, parse_members n d (s ++ [c]) acc = padd [c] (parse_members n d s acc)).
Proof.
  intros Hc; induction n as [|n [IHs [IHe IHm]]]; [split; [|split]; reflexivity|].
  split; [|split].
  - intros d s; destruct s as [|c0 t]; [ws_cases c Hc; reflexivity|].
    cbn [app scan_once].
    destruct (c0 =? 34); [rewrite pstring_snoc by exact Hc; apply pmap_padd|].
    destruct (c0 =? 123).
    { destruct d as [|d']; [reflexivity|].
      rewrite skip_ws_snoc by exact Hc; destruct (skip_ws t) as [|x y]; [apply parse_members_nil|].
      destruct (x =? 125); [reflexivity|]. apply (IHm d' (x :: y)). }
    destruct (c0 =? 91).
    { destruct d as [|d']; [reflexivity|].
      rewrite skip_ws_snoc by exact Hc; destruct (skip_ws t) as [|x y]; [reflexivity|].
      destruct (x =? 93); [reflexivity|]. apply (IHe d' (x :: y)). }
    change (c0 :: t ++ [c]) with ((c0 :: t) ++ [c]); generalize (c0 :: t) as s; intros s.
    literal_step Hc s (ps "null"). literal_step Hc s (ps "true").
    literal_step Hc s (ps "false"). literal_step Hc s (ps "NaN").
    literal_step Hc s (ps "Infinity"). literal_step Hc s (ps "-Infinity").
    apply pnumber_snoc; exact Hc.
  - intros d s acc; cbn [parse_elems].
    rewrite IHs; destruct (scan_once n d s) as [v r|e|]; cbn [padd]; try reflexivity.
    rewrite skip_ws_snoc by exact Hc; destruct (skip_ws r) as [|x y]; [reflexivity|].
    destruct (x =? 93); [reflexivity|]. destruct (x =? 44); [|reflexivity].
    rewrite skip_ws_snoc by exact Hc; destruct (skip_ws y) as [|x' y'];
      [apply parse_elems_nil | apply (IHe d (x' :: y'))].
  - intros d s acc; destruct s as [|c0 t]; [ws_cases c Hc; reflexivity|].
    cbn [app parse_members].
    destruct (c0 =? 34); [|reflexivity].
    rewrite pstring_snoc by exact Hc; destruct (pstring t) as [k r|e|]; cbn [padd]; try reflexivity.
    rewrite skip_ws_snoc by exact Hc; destruct (skip_ws r) as [|x y]; [reflexivity|].
    destruct (x =? 58); [|reflexivity].
    rewrite skip_ws_snoc by exact Hc; destruct (skip_ws y) as [|x1 y1].
    + destruct (scan_once_nil_cases n d) as [E|E]; rewrite E; reflexivity.
    + change (x1 :: y1 ++ [c]) with ((x1 :: y1) ++ [c]); rewrite IHs.
      destruct (scan_once n d (x1 :: y1)) as [v r2|e|]; cbn [padd]; try reflexivity.
      rewrite skip_ws_snoc by exact Hc; destruct (skip_ws r2) as [|x2 y2]; [reflexivity|].
      destruct (x2 =? 125); [reflexivity|]. destruct (x2 =? 44); [|reflexivity].
      rewrite skip_ws_snoc by exact Hc; destruct (skip_ws y2) as [|x3 y3];
        [apply parse_members_nil | apply (IHm d (x3 :: y3))].
Qed.

Lemma scan_once_app_ws (w : pystr) : all_ws w = true ->
  forall n d s, scan_once n d (s ++ w) = padd w (scan_once n d s).
Proof.
  induction w as [|c w IH]; intros Hw n d s; [rewrite app_nil_r, padd_nil; reflexivity|].
  unfold all_ws in Hw; cbn in Hw; apply andb_true_iff in Hw as [Hc Hw].
  replace (s ++ c :: w) with ((s ++ [c]) ++ w) by (rewrite <- app_assoc; reflexivity).
  rewrite (IH Hw), (proj1 (scan_snoc c Hc n)), padd_padd; reflexivity.
Qed.

Lemma skip_ws_app_ws_r (w s : pystr) : all_ws w = true ->
  skip_ws (s ++ w) = match skip_ws s with [] => [] | x :: y => x :: y ++ w end.
Proof.
  revert s; induction w as [|c w IH]; intros s Hw.
  - rewrite app_nil_r; destruct (skip_ws s); rewrite ?app_nil_r; reflexivity.
  - unfold all_ws in Hw; cbn in Hw; apply andb_true_iff in Hw as [Hc Hw].
    replace (s ++ c :: w) with ((s ++ [c]) ++ w) by (rewrite <- app_assoc; reflexivity).
    rewrite (IH _ Hw), (skip_ws_snoc c s Hc).
    destruct (skip_ws s); [reflexivity|]; rewrite <- app_assoc; reflexivity.
Qed.

(** ** What the scanner leaves unread *)

#[local] Hint Constructors ssuffix : core.

Lemma ssuffix_trans (a b s : pystr) : ssuffix a b -> ssuffix b s -> ssuffix a s.
Proof. intros Hab Hbs; induction Hbs; auto. Qed.

Lemma ssuffix_length (r s : pystr) : ssuffix r s -> (length r < length s)%nat.
Proof. induction 1; cbn; lia. Qed.

Lemma ssuffix_app (r s : pystr) : ssuffix r s -> exists pre, s = pre ++ r.
Proof.
  induction 1 as [x|x s H [pre ->]]; [exists [x] | exists (x :: pre)]; reflexivity.
Qed.

Lemma app_ssuffix (q r : pystr) : q <> [] -> ssuffix r (q ++ r).
Proof.
  induction q as [|x q IH]; intros Hq; [congruence|].
  destruct q as [|y q]; cbn; [constructor | constructor; apply IH; discriminate].
Qed.

Lemma skip_ws_ssuffix (r s : pystr) : ssuffix r (skip_ws s) -> ssuffix r s.
Proof.
  induction s as [|c s IH]; cbn; [inversion 1|].
  destruct (json_ws c); auto.
Qed.

Lemma rest_ok_weaken {A} (t s : pystr) (p : PR A) : ssuffix t s -> rest_ok t p -> rest_ok s p.
Proof. destruct p; cbn; eauto using ssuffix_trans. Qed.

Lemma rest_ok_pcons (s : pystr) (u : Z) (p : PR pystr) : rest_ok s (pcons u p) = rest_ok s p.
Proof. destruct p; reflexivity. Qed.

Ltac rest_step IH :=
  match goal with
  | |- rest_ok ?s (pcons _ (pstring ?r)) =>
      rewrite rest_ok_pcons; apply (rest_ok_weaken r); [repeat constructor | apply IH; cbn [length] in *; lia]
  end.

Lemma pstring_rest (s : pystr) : rest_ok s (pstring s).
Proof.
  assert (Hn : forall k s, (length s < k)%nat -> rest_ok s (pstring s)).
  2: { apply (Hn (S (length s))); lia. }
  induction k as [|k IH]; intros s' Hlen; [lia|].
  destruct s' as [|c0 t]; [exact I|]; cbn [pstring].
  destruct (c0 =? 34); [constructor|].
  destruct (c0 =? 92).
  2: { destruct (c0 <? 32); [exact I | rest_step IH]. }
  destruct t as [|e t']; [exact I|].
  destruct (e =? 117).
  2: { destruct (simple_escape e); [rest_step IH | exact I]. }
  destruct t' as [|a [|b [|c1 [|d r]]]]; try exact I.
  destruct (hex4 a b c1 d) as [u|]; [|exact I].
  destruct (is_high_surrogate u); [|rest_step IH].
  destruct r as [|x [|y [|a2 [|b2 [|c2 [|d2 r2]]]]]]; try rest_step IH.
  destruct ((x =? 92) && (y =? 117)); [|rest_step IH].
  destruct (hex4 a2 b2 c2 d2) as [u2|]; [|exact I].
  destruct (is_low_surrogate u2); rest_step IH.
Qed.

Lemma pstring_not_fuel (s : pystr) : pstring s <> PFuel.
Proof.
  assert (Hn : forall k s, (length s < k)%nat -> pstring s <> PFuel).
  2: { apply (Hn (S (length s))); lia. }
  induction k as [|k IH]; intros s' Hlen; [lia|].
  assert (Hp : forall u r, (length r < k)%nat -> pcons u (pstring r) <> PFuel).
  { intros u r Hr; specialize (IH r Hr); destruct (pstring r); cbn; congruence. }
  destruct s' as [|c0 t]; [discriminate|]; cbn [pstring].
  destruct (c0 =? 34); [discriminate|].
  destruct (c0 =? 92).
  2: { destruct (c0 <? 32); [discriminate | apply Hp; cbn in *; lia]. }
  destruct t as [|e t']; [discriminate|].
  destruct (e =? 117).
  2: { destruct (simple_escape e); [apply Hp; cbn in *; lia | discriminate]. }
  destruct t' as [|a [|b [|c1 [|d r]]]]; try discriminate.
  destruct (hex4 a b c1 d) as [u|]; [|discriminate].
  destruct (is_high_surrogate u); [|apply Hp; cbn in *; lia].
  destruct r as [|x [|y [|a2 [|b2 [|c2 [|d2 r2]]]]]]; try (apply Hp; cbn in *; lia).
  destruct ((x =? 92) && (y =? 117)); [|apply Hp; cbn in *; lia].
  destruct (hex4 a2 b2 c2 d2) as [u2|]; [|discriminate].
  destruct (is_low_surrogate u2); apply Hp; cbn in *; lia.
Qed.

Lemma span_digits_app' (s ds r : pystr) : span_digits s = (ds, r) -> s = ds ++ r.
Proof.
  revert ds r; induction s as [|x s IH]; intros ds r H; cbn in H.
  - injection H as <- <-; reflexivity.
  - destruct (is_digit x).
    + destruct (span_digits s) as [ds' r'] eqn:E; injection H as <- <-.
      rewrite (IH _ _ eq_refl); reflexivity.
    + injection H as <- <-; reflexivity.
Qed.

Lemma lex_int_part_app (s ip r : pystr) : lex_int_part s = Some (ip, r) -> ip <> [] /\ s = ip ++ r.
Proof.
  destruct s as [|x t]; cbn; [discriminate|].
  destruct ((49 <=? x) && (x <=? 57)).
  - destruct (span_digits t) as [ds r'] eqn:E; intros H; injection H as <- <-.
    split; [discriminate | rewrite (span_digits_app' _ _ _ E); reflexivity].
  - destruct (x =? 48) eqn:E0; [|discriminate]; intros H; injection H as <- <-.
    apply Z.eqb_eq in E0 as ->; split; [discriminate | reflexivity].
Qed.

Lemma lex_frac_app (s fr r : pystr) : lex_frac s = (fr, r) -> s = fr ++ r.
Proof.
  destruct s as [|x [|y t]]; cbn; try (intros H; injection H as <- <-; reflexivity).
  destruct ((x =? 46) && is_digit y) eqn:E; [|intros H; injection H as <- <-; reflexivity].
  apply andb_true_iff in E as [E _]; apply Z.eqb_eq in E as ->.
  destruct (span_digits t) as [ds r'] eqn:Es; intros H; injection H as <- <-.
  rewrite (span_digits_app' _ _ _ Es); reflexivity.
Qed.

Lemma lex_exp_app (s ex r : pystr) : lex_exp s = (ex, r) -> s = ex ++ r.
Proof.
  destruct s as [|e t]; cbn; [intros H; injection H as <- <-; reflexivity|].
  destruct ((e =? 101) || (e =? 69)); [|intros H; injection H as <- <-; reflexivity].
  destruct t as [|x t].
  - intros H; injection H as <- <-; reflexivity.
  - destruct ((x =? 45) || (x =? 43)).
    + destruct (span_digits t) as [[|d ds] r'] eqn:Es; intros H; injection H as <- <-; [reflexivity|].
      rewrite (span_digits_app' _ _ _ Es); reflexivity.
    + destruct (span_digits (x :: t)) as [[|d ds] r'] eqn:Es; intros H; injection H as <- <-;
        [reflexivity|].
      cbn; rewrite (span_digits_app' _ _ _ Es); reflexivity.
Qed.

Lemma pnumber_rest (s : pystr) v r : pnumber s = POk v r ->
  ssuffix r s /\ (forall l, v <> JArr l) /\ (forall kvs, v <> JObj kvs).
Proof.
  unfold pnumber.
  destruct (match s with c :: t => if c =? 45 then ([45], t) else ([], s) | [] => ([], s) end)
    as [sign s1] eqn:Es.
  assert (Hs : s = sign ++ s1).
  { destruct s as [|c t]; [injection Es as <- <-; reflexivity|].
    destruct (c =? 45) eqn:Ec; injection Es as <- <-; [apply Z.eqb_eq in Ec as ->|]; reflexivity. }
  destruct (lex_int_part s1) as [[ip r1]|] eqn:Ei; [|discriminate].
  apply lex_int_part_app in Ei as [Hip ->].
  destruct (lex_frac r1) as [fr r2] eqn:Ef; destruct (lex_exp r2) as [ex r3] eqn:Ee.
  apply lex_frac_app in Ef; apply lex_exp_app in Ee; subst s r1 r2.
  assert (Hq : forall q, ssuffix r3 (sign ++ ip ++ q ++ r3)).
  { intros q; rewrite !app_assoc; apply app_ssuffix.
    destruct ip; [congruence|]; destruct sign; discriminate. }
  destruct fr as [|f fr], ex as [|x ex].
  - destruct (_ && _); [discriminate|]; intros H; injection H as <- <-.
    split; [exact (Hq []) | split; discriminate].
  - intros H; injection H as <- <-; split; [exact (Hq (x :: ex)) | split; discriminate].
  - intros H; injection H as <- <-; split; [exact (Hq (f :: fr)) | split; discriminate].
  - intros H; injection H as <- <-; split; [|split; discriminate].
    pose proof (Hq ((f :: fr) ++ x :: ex)) as Hq'; rewrite <- app_assoc in Hq'; exact Hq'.
Qed.

Lemma pnumber_not_fuel (s : pystr) : pnumber s <> PFuel.
Proof.
  unfold pnumber; destruct (match s with c :: t => _ | [] => _ end) as [sign s1].
  destruct (lex_int_part s1) as [[ip r1]|]; [|discriminate].
  destruct (lex_frac r1) as [fr r2]; destruct (lex_exp r2) as [ex r3].
  destruct fr, ex; try discriminate; destruct (_ && _); discriminate.
Qed.

Lemma skip_ws_ssuffix_cons (c : Z) (t : pystr) : ssuffix (skip_ws t) (c :: t).
Proof.
  revert c; induction t as [|x t IH]; intros c; cbn; [constructor|].
  destruct (json_ws x); [constructor; apply IH | constructor].
Qed.

Lemma skip_cons_ssuffix (r y : pystr) (x : Z) : skip_ws r = x :: y -> ssuffix y r.
Proof. intros E; apply skip_ws_ssuffix; rewrite E; constructor. Qed.

Lemma skip_cons_ssuffix2 (r y : pystr) (x : Z) : skip_ws r = x :: y -> ssuffix (skip_ws y) r.
Proof. intros E; apply skip_ws_ssuffix; rewrite E; apply skip_ws_ssuffix_cons. Qed.

Lemma startswith_skipn_ssuffix (s p : pystr) :
  p <> [] -> startswith s p = true -> ssuffix (skipn (length p) s) s.
Proof.
  intros Hp H; pose proof (startswith_app_skipn s p H) as E.
  rewrite E at 2; apply app_ssuffix; exact Hp.
Qed.

Lemma rest_ok_nil {A} (p : PR A) : rest_ok [] p -> forall s, rest_ok s p.
Proof. destruct p; cbn; [inversion 1 | trivial..]. Qed.

Ltac literal_rest s lit :=
  let E := fresh "E" in
  destruct (startswith s lit) eqn:E;
  [exact (startswith_skipn_ssuffix s lit ltac:(discriminate) E)|].

Lemma scan_rest (n : nat) :
  (forall d s, rest_ok s (scan_once n d s)) /\
  (forall d s acc, rest_ok s (parse_elems n d s acc)) /\
  (forall d s acc, rest_ok s (parse_members n d s acc)).
Proof.
  induction n as [|n [IHs [IHe IHm]]]; [split; [|split]; intros; exact I|].
  split; [|split].
  - intros d s; destruct s as [|c0 t]; [exact I|]; cbn [scan_once].
    destruct (c0 =? 34).
    { pose proof (pstring_rest t) as H; destruct (pstring t); cbn in *; auto. }
    destruct (c0 =? 123).
    { destruct d as [|d']; [exact I|].
      pose proof (skip_ws_ssuffix_cons c0 t) as Ht.
      destruct (skip_ws t) as [|x y] eqn:Et; [apply rest_ok_nil, IHm|].
      destruct (x =? 125); [cbn; constructor; exact (skip_cons_ssuffix _ _ _ Et)|].
      apply (rest_ok_weaken (x :: y)); [exact Ht | apply IHm]. }
    destruct (c0 =? 91).
    { destruct d as [|d']; [exact I|].
      pose proof (skip_ws_ssuffix_cons c0 t) as Ht.
      destruct (skip_ws t) as [|x y] eqn:Et; [exact I|].
      destruct (x =? 93); [cbn; constructor; exact (skip_cons_ssuffix _ _ _ Et)|].
      apply (rest_ok_weaken (x :: y)); [exact Ht | apply IHe]. }
    generalize (c0 :: t) as s; intros s.
    literal_rest s (ps "null"). literal_rest s (ps "true"). literal_rest s (ps "false").
    literal_rest s (ps "NaN"). literal_rest s (ps "Infinity"). literal_rest s (ps "-Infinity").
    pose proof (pnumber_rest s) as H; destruct (pnumber s); [exact (proj1 (H _ _ eq_refl)) | exact I..].
  - intros d s acc; cbn [parse_elems].
    pose proof (IHs d s) as Hs; destruct (scan_once n d s) as [v r|e|]; [|exact I..]; cbn in Hs.
    destruct (skip_ws r) as [|x y] eqn:Er; [exact I|].
    destruct (x =? 93); [cbn; exact (ssuffix_trans _ _ _ (skip_cons_ssuffix _ _ _ Er) Hs)|].
    destruct (x =? 44); [|exact I].
    apply (rest_ok_weaken (skip_ws y)); [|apply IHe].
    exact (ssuffix_trans _ _ _ (skip_cons_ssuffix2 _ _ _ Er) Hs).
  - intros d s acc; destruct s as [|c0 t]; [exact I|]; cbn [parse_members].
    destruct (c0 =? 34); [|exact I].
    pose proof (pstring_rest t) as Ht; destruct (pstring t) as [k r|e|]; [|exact I..]; cbn in Ht.
    destruct (skip_ws r) as [|x y] eqn:Er; [exact I|].
    destruct (x =? 58); [|exact I].
    assert (H1 : ssuffix (skip_ws y) (c0 :: t))
      by (constructor; exact (ssuffix_trans _ _ _ (skip_cons_ssuffix2 _ _ _ Er) Ht)).
    pose proof (IHs d (skip_ws y)) as Hv.
    destruct (scan_once n d (skip_ws y)) as [v r2|e|]; [|exact I..]; cbn in Hv.
    assert (H2 : ssuffix r2 (c0 :: t)) by exact (ssuffix_trans _ _ _ Hv H1).
    destruct (skip_ws r2) as [|x2 y2] eqn:Er2; [exact I|].
    destruct (x2 =? 125); [cbn; exact (ssuffix_trans _ _ _ (skip_cons_ssuffix _ _ _ Er2) H2)|].
    destruct (x2 =? 44); [|exact I].
    apply (rest_ok_weaken (skip_ws y2)); [|apply IHm].
    exact (ssuffix_trans _ _ _ (skip_cons_ssuffix2 _ _ _ Er2) H2).
Qed.

(** ** The fuel of [json_loads] is never exhausted *)

Ltac literal_cases s :=
  destruct (startswith s (ps "null")); [discriminate|];
  destruct (startswith s (ps "true")); [discriminate|];
  destruct (startswith s (ps "false")); [discriminate|];
  destruct (startswith s (ps "NaN")); [discriminate|];
  destruct (startswith s (ps "Infinity")); [discriminate|];
  destruct (startswith s (ps "-Infinity")); [discriminate|].

Lemma scan_fuel_enough (n : nat) :
  (forall d s, (2 * length s < n)%nat -> scan_once n d s <> PFuel) /\
  (forall d s acc, (2 * length s + 1 < n)%nat -> parse_elems n d s acc <> PFuel) /\
  (forall d s acc, (2 * length s + 1 < n)%nat -> parse_members n d s acc <> PFuel).
Proof.
  induction n as [|n [IHs [IHe IHm]]]; [split; [|split]; intros; lia|].
  split; [|split].
  - intros d s Hl; destruct s as [|c0 t]; [discriminate|]; cbn [scan_once]; cbn [length] in Hl.
    destruct (c0 =? 34).
    { pose proof (pstring_not_fuel t); destruct (pstring t); cbn; congruence. }
    destruct (c0 =? 123).
    { destruct d as [|d']; [discriminate|].
      pose proof (skip_ws_length t) as Ht.
      destruct (skip_ws t) as [|x y]; [apply IHm; cbn; lia|].
      destruct (x =? 125); [discriminate | apply IHm; cbn in *; lia]. }
    destruct (c0 =? 91).
    { destruct d as [|d']; [discriminate|].
      pose proof (skip_ws_length t) as Ht.
      destruct (skip_ws t) as [|x y]; [discriminate|].
      destruct (x =? 93); [discriminate | apply IHe; cbn in *; lia]. }
    generalize (c0 :: t) as s; intros s.
    literal_cases s. apply pnumber_not_fuel.
  - intros d s acc Hl; cbn [parse_elems].
    pose proof (IHs d s ltac:(lia)) as Hs; pose proof (proj1 (scan_rest n) d s) as Hr.
    destruct (scan_once n d s) as [v r|e|]; [|discriminate|congruence].
    cbn in Hr; apply ssuffix_length in Hr.
    pose proof (skip_ws_length r) as Hr1.
    destruct (skip_ws r) as [|x y]; [discriminate|].
    destruct (x =? 93); [discriminate|]. destruct (x =? 44); [|discriminate].
    apply IHe; pose proof (skip_ws_length y); cbn in Hr1; lia.
  - intros d s acc Hl; destruct s as [|c0 t]; [discriminate|]; cbn [parse_members]; cbn [length] in Hl.
    destruct (c0 =? 34); [|discriminate].
    pose proof (pstring_rest t) as Ht; pose proof (pstring_not_fuel t) as Hf.
    destruct (pstring t) as [k r|e|]; [|discriminate|congruence].
    cbn in Ht; apply ssuffix_length in Ht.
    pose proof (skip_ws_length r) as Hr1.
    destruct (skip_ws r) as [|x y]; [discriminate|].
    destruct (x =? 58); [|discriminate]. cbn in Hr1.
    pose proof (skip_ws_length y) as Hy.
    pose proof (IHs d (skip_ws y) ltac:(lia)) as Hs.
    pose proof (proj1 (scan_rest n) d (skip_ws y)) as Hv.
    destruct (scan_once n d (skip_ws y)) as [v r2|e|]; [|discriminate|congruence].
    cbn in Hv; apply ssuffix_length in Hv.
    pose proof (skip_ws_length r2) as Hr2.
    destruct (skip_ws r2) as [|x2 y2]; [discriminate|].
    destruct (x2 =? 125); [discriminate|]. destruct (x2 =? 44); [|discriminate].
    apply IHm; pose proof (skip_ws_length y2); cbn in Hr2; lia.
Qed.

Lemma scan_mono (n : nat) :
  (forall d s m, scan_once n d s <> PFuel -> (n <= m)%nat -> scan_once m d s = scan_once n d s) /\
  (forall d s acc m, parse_elems n d s acc <> PFuel -> (n <= m)%nat ->
     parse_elems m d s acc = parse_elems n d s acc) /\
  (forall d s acc m, parse_members n d s acc <> PFuel -> (n <= m)%nat ->
     parse_members m d s acc = parse_members n d s acc).
Proof.
  induction n as [|n [IHs [IHe IHm]]];
    [split; [|split]; intros; exfalso; match goal with H : _ <> PFuel |- _ => apply H end; reflexivity|].
  split; [|split].
  - intros d s m H Hm; destruct m as [|m]; [lia|].
    destruct s as [|c0 t]; [reflexivity|]; cbn [scan_once] in H |- *.
    destruct (c0 =? 34); [reflexivity|].
    destruct (c0 =? 123).
    { destruct d; [reflexivity|].
      destruct (skip_ws t) as [|x y]; [apply IHm; [exact H | lia]|].
      destruct (x =? 125); [reflexivity | apply IHm; [exact H | lia]]. }
    destruct (c0 =? 91).
    { destruct d; [reflexivity|].
      destruct (skip_ws t) as [|x y]; [reflexivity|].
      destruct (x =? 93); [reflexivity | apply IHe; [exact H | lia]]. }
    reflexivity.
  - intros d s acc m H Hm; destruct m as [|m]; [lia|]; cbn [parse_elems] in H |- *.
    destruct (scan_once n d s) as [v r|e|] eqn:E; [| |exfalso; apply H; reflexivity];
      rewrite (IHs d s m) by ((rewrite E; discriminate) || lia); rewrite E; [|reflexivity].
    destruct (skip_ws r) as [|x y]; [reflexivity|].
    destruct (x =? 93); [reflexivity|]. destruct (x =? 44); [|reflexivity].
    apply IHe; [exact H | lia].
  - intros d s acc m H Hm; destruct m as [|m]; [lia|].
    destruct s as [|c0 t]; [reflexivity|]; cbn [parse_members] in H |- *.
    destruct (c0 =? 34); [|reflexivity].
    destruct (pstring t) as [k r|e|]; try reflexivity.
    destruct (skip_ws r) as [|x y]; [reflexivity|].
    destruct (x =? 58); [|reflexivity].
    destruct (scan_once n d (skip_ws y)) as [v r2|e|] eqn:E; [| |exfalso; apply H; reflexivity];
      rewrite (IHs d (skip_ws y) m) by ((rewrite E; discriminate) || lia); rewrite E; [|reflexivity].
    destruct (skip_ws r2) as [|x2 y2]; [reflexivity|].
    destruct (x2 =? 125); [reflexivity|]. destruct (x2 =? 44); [|reflexivity].
    apply IHm; [exact H | lia].
Qed.

Lemma scan_once_fuel_enough (d : nat) (s : pystr) : scan_once (json_fuel s) d s <> PFuel.
Proof. apply (proj1 (scan_fuel_enough _)); unfold json_fuel; lia. Qed.

(** [json.loads] ignores JSON whitespace around the document. *)
Lemma json_loads_ws (w1 s w2 : pystr) :
  all_ws w1 = true -> all_ws w2 = true -> startswith s [65279] = false ->
  json_loads (w1 ++ s ++ w2) = json_loads s.
Proof.
  intros H1 H2 Hb; unfold json_loads.
  assert (Hb' : startswith (w1 ++ s ++ w2) [65279] = false).
  { destruct w1 as [|c w1].
    - destruct s as [|x s].
      + destruct w2 as [|y w2]; [reflexivity|].
        unfold all_ws in H2; cbn in H2; apply andb_true_iff in H2 as [Hy _].
        cbn [app startswith]; ws_cases y Hy; reflexivity.
      + cbn [app startswith] in Hb |- *; rewrite startswith_nil in Hb |- *; exact Hb.
    - unfold all_ws in H1; cbn in H1; apply andb_true_iff in H1 as [Hc _].
      cbn [app startswith]; ws_cases c Hc; reflexivity. }
  rewrite Hb, Hb', (skip_ws_app_ws w1 _ H1), (skip_ws_app_ws_r w2 s H2).
  destruct (skip_ws s) as [|x y] eqn:Es; [reflexivity|].
  change (x :: y ++ w2) with ((x :: y) ++ w2).
  rewrite (scan_once_app_ws w2 H2).
  rewrite (proj1 (scan_mono (json_fuel (x :: y))) (rt_recursion_limit rt) (x :: y)
             (json_fuel ((x :: y) ++ w2)) (scan_once_fuel_enough _ _))
    by (unfold json_fuel; rewrite length_app; lia).
  pose proof (scan_once_fuel_enough (rt_recursion_limit rt) (x :: y)) as Hf.
  destruct (scan_once (json_fuel (x :: y)) _ (x :: y)) as [v r|e|]; cbn [padd];
    [|reflexivity|congruence].
  rewrite (skip_ws_app_ws_r w2 r H2); destruct (skip_ws r); reflexivity.
Qed.

(** ** A decoded array is a bracketed text between whitespace *)

Lemma parse_members_obj (n d : nat) (s : pystr) acc v r :
  parse_members n d s acc = POk v r -> exists kvs, v = JObj kvs.
Proof.
  revert s acc; induction n as [|n IH]; intros s acc H; [discriminate|].
  destruct s as [|c0 t]; [discriminate|]; cbn [parse_members] in H.
  destruct (c0 =? 34); [|discriminate].
  destruct (pstring t) as [k r1|e|]; try discriminate.
  destruct (skip_ws r1) as [|x y]; [discriminate|].
  destruct (x =? 58); [|discriminate].
  destruct (scan_once n d (skip_ws y)) as [v2 r2|e|]; try discriminate.
  destruct (skip_ws r2) as [|x2 y2]; [discriminate|].
  destruct (x2 =? 125); [injection H as <- _; eexists; reflexivity|].
  destruct (x2 =? 44); [exact (IH _ _ H) | discriminate].
Qed.

Lemma parse_elems_close (n d : nat) (s : pystr) acc v r :
  parse_elems n d s acc = POk v r -> exists pre, s = pre ++ 93 :: r.
Proof.
  revert s acc v; induction n as [|n IH]; intros s acc v H; [discriminate|].
  cbn [parse_elems] in H.
  pose proof (proj1 (scan_rest n) d s) as Hs.
  destruct (scan_once n d s) as [v0 r0|e|]; try discriminate; cbn in Hs.
  destruct (ssuffix_app _ _ Hs) as [pre0 ->].
  destruct (skip_ws_split r0) as [w [_ Hw]].
  destruct (skip_ws r0) as [|x y]; [discriminate|].
  destruct (x =? 93) eqn:E93.
  - injection H as _ <-; apply Z.eqb_eq in E93 as ->.
    exists (pre0 ++ w); rewrite Hw, <- app_assoc; reflexivity.
  - destruct (x =? 44); [|discriminate].
    destruct (IH _ _ _ H) as [pre1 Hp].
    destruct (skip_ws_split y) as [w' [_ Hw']].
    exists (pre0 ++ w ++ x :: w' ++ pre1).
    rewrite Hw, Hw', Hp, <- ?app_assoc; cbn [app]; rewrite <- ?app_assoc; reflexivity.
Qed.

Lemma scan_once_arr (n d : nat) (s : pystr) l r :
  scan_once n d s = POk (JArr l) r -> exists mid, s = 91 :: mid ++ 93 :: r.
Proof.
  intros H; destruct n as [|n]; [discriminate|].
  destruct s as [|c0 t]; [discriminate|]; cbn [scan_once] in H.
  destruct (c0 =? 34). { destruct (pstring t); discriminate. }
  destruct (c0 =? 123).
  { destruct d as [|d']; [discriminate|].
    destruct (skip_ws t) as [|x y].
    - destruct (parse_members_obj _ _ _ _ _ _ H); discriminate.
    - destruct (x =? 125); [discriminate|].
      destruct (parse_members_obj _ _ _ _ _ _ H); discriminate. }
  destruct (c0 =? 91) eqn:E91.
  { apply Z.eqb_eq in E91 as ->.
    destruct d as [|d']; [discriminate|].
    destruct (skip_ws_split t) as [w [_ Hw]].
    destruct (skip_ws t) as [|x y]; [discriminate|].
    destruct (x =? 93) eqn:E93.
    - injection H as _ <-; apply Z.eqb_eq in E93 as ->.
      exists w; rewrite Hw; reflexivity.
    - destruct (parse_elems_close _ _ _ _ _ _ H) as [pre Hp].
      exists (w ++ pre); rewrite Hw, Hp, <- app_assoc; reflexivity. }
  revert H; generalize (c0 :: t) as s; intros s H.
  destruct (startswith s (ps "null")); [discriminate|].
  destruct (startswith s (ps "true")); [discriminate|].
  destruct (startswith s (ps "false")); [discriminate|].
  destruct (startswith s (ps "NaN")); [discriminate|].
  destruct (startswith s (ps "Infinity")); [discriminate|].
  destruct (startswith s (ps "-Infinity")); [discriminate|].
  destruct (pnumber_rest _ _ _ H) as [_ [Ha _]]; exfalso; exact (Ha l eq_refl).
Qed.

Lemma json_loads_arr_shape (t : pystr) l :
  json_loads t = Ok (JArr l) ->
  exists w1 mid w2, all_ws w1 = true /\ all_ws w2 = true /\
                    t = w1 ++ (91 :: mid ++ [93]) ++ w2.
Proof.
  unfold json_loads; intros H.
  destruct (startswith t [65279]); [discriminate|].
  destruct (skip_ws_split t) as [w1 [Hw1 Ht]].
  destruct (scan_once _ _ (skip_ws t)) as [v r|e|] eqn:E; try discriminate.
  destruct (skip_ws r) eqn:Er; [|discriminate].
  injection H as ->.
  destruct (scan_once_arr _ _ _ _ _ E) as [mid Hm].
  exists w1, mid, r; split; [exact Hw1 | split; [apply skip_ws_nil_all; exact Er|]].
  rewrite Ht at 1; rewrite Hm; cbn [app]; rewrite <- app_assoc; reflexivity.
Qed.

(** ** Fences and trimming *)

Lemma json_ws_isspace (c : Z) : json_ws c = true -> py_isspace c = true.
Proof. intros Hc; ws_cases c Hc; reflexivity. Qed.

Lemma lstrip_ws_app (w s : pystr) : all_ws w = true -> lstrip (w ++ s) = lstrip s.
Proof.
  unfold all_ws; induction w as [|c w IH]; cbn; [reflexivity|].
  intros H; apply andb_true_iff in H as [Hc H]; rewrite (json_ws_isspace c Hc); exact (IH H).
Qed.

Lemma lstrip_cons_nonspace (c : Z) (s : pystr) : py_isspace c = false -> lstrip (c :: s) = c :: s.
Proof. intros H; cbn; rewrite H; reflexivity. Qed.

Lemma all_ws_rev (w : pystr) : all_ws (rev w) = all_ws w.
Proof.
  unfold all_ws; induction w as [|c w IH]; cbn; [reflexivity|].
  rewrite forallb_app, IH; cbn; rewrite andb_true_r, andb_comm; reflexivity.
Qed.

Lemma startswith_app_self (p x : pystr) : startswith (p ++ x) p = true.
Proof.
  induction p as [|c p IH]; [apply startswith_nil|].
  cbn; rewrite Z.eqb_refl, IH; reflexivity.
Qed.

Lemma py_strip_fixed (s s' s'' : pystr) (c c' : Z) :
  s = c :: s' -> rev s = c' :: s'' -> py_isspace c = false -> py_isspace c' = false ->
  py_strip s = s.
Proof.
  intros E1 E2 Hc Hc'; unfold py_strip.
  replace (lstrip s) with s by (rewrite E1, lstrip_cons_nonspace; trivial).
  rewrite E2, lstrip_cons_nonspace by exact Hc'; rewrite <- E2; apply rev_involutive.
Qed.

Lemma py_strip_core (w1 mid w2 : pystr) : all_ws w1 = true -> all_ws w2 = true ->
  py_strip (w1 ++ (91 :: mid ++ [93]) ++ w2) = 91 :: mid ++ [93].
Proof.
  intros H1 H2; unfold py_strip.
  rewrite (lstrip_ws_app w1 _ H1); cbn [app]; rewrite lstrip_cons_nonspace by reflexivity.
  replace (rev (91 :: (mid ++ [93]) ++ w2)) with (rev w2 ++ 93 :: rev mid ++ [91])
    by (cbn [rev]; rewrite !rev_app_distr; cbn; rewrite <- !app_assoc; reflexivity).
  rewrite lstrip_ws_app by (rewrite all_ws_rev; exact H2).
  rewrite lstrip_cons_nonspace by reflexivity.
  cbn [rev]; rewrite rev_app_distr, rev_involutive; reflexivity.
Qed.

Lemma strip_fences_bare (w1 mid w2 : pystr) : all_ws w1 = true -> all_ws w2 = true ->
  strip_fences (w1 ++ (91 :: mid ++ [93]) ++ w2) = 91 :: mid ++ [93].
Proof.
  intros H1 H2; unfold strip_fences, endswith; rewrite py_strip_core by assumption; cbv zeta.
  change (startswith (91 :: mid ++ [93]) (ps "```json")) with false; cbv beta iota.
  replace (rev (91 :: mid ++ [93])) with (93 :: rev mid ++ [91])
    by (cbn [rev]; rewrite rev_app_distr; reflexivity).
  change (startswith (93 :: rev mid ++ [91]) (rev (ps "```"))) with false; reflexivity.
Qed.

Lemma strip_fences_wrapped (t : pystr) :
  strip_fences (ps "```json" ++ nl ++ t ++ nl ++ ps "```") = nl ++ t ++ nl.
Proof.
  set (X := nl ++ t ++ nl).
  replace (ps "```json" ++ nl ++ t ++ nl ++ ps "```") with (ps "```json" ++ (X ++ ps "```"))
    by (unfold X; rewrite <- !app_assoc; reflexivity).
  unfold strip_fences.
  rewrite (py_strip_fixed _ (ps "``json" ++ X ++ ps "```") (rev (ps "```json" ++ X ++ ps "``")) 96 96);
    [| reflexivity | | reflexivity | reflexivity].
  2: { replace (ps "```json" ++ X ++ ps "```") with ((ps "```json" ++ X ++ ps "``") ++ [96])
         by (rewrite <- !app_assoc; reflexivity).
       apply rev_unit. }
  cbv zeta; rewrite startswith_app_self.
  change (skipn 7 (ps "```json" ++ X ++ ps "```")) with (X ++ ps "```").
  unfold endswith; rewrite rev_app_distr, startswith_app_self.
  rewrite firstn_app, length_app.
  change (length (ps "```")) with 3%nat.
  replace (length X + 3 - 3)%nat with (length X) by lia.
  rewrite firstn_all, Nat.sub_diag; cbn [firstn]; rewrite app_nil_r; reflexivity.
Qed.

(** C7.  A reply that wraps a JSON array text [t] in a "```json" line and a
    closing "```" line decodes to the same classification list as the bare
    reply [t]: trimming and fence removal leave the array text between
    newlines, and [json.loads] ignores surrounding JSON whitespace. *)
Theorem fenced_reply_parses_as_bare (t : pystr) (l : list json)
    (Ht : json_loads t = Ok (JArr l)) :
  parse_response (ps "```json" ++ nl ++ t ++ nl ++ ps "```") = parse_response t /\
  parse_response t = Ok (JArr l).
Proof.
  assert (Hbom : startswith t [65279] = false)
    by (unfold json_loads in Ht; destruct (startswith t [65279]); [discriminate | reflexivity]).
  assert (Hbare : parse_response t = Ok (JArr l)).
  { destruct (json_loads_arr_shape t l Ht) as [w1 [mid [w2 [H1 [H2 E]]]]].
    unfold parse_response; rewrite E, strip_fences_bare by assumption.
    rewrite <- (json_loads_ws w1 (91 :: mid ++ [93]) w2 H1 H2 eq_refl), <- E, Ht; reflexivity. }
  split; [|exact Hbare]; rewrite Hbare.
  unfold parse_response; rewrite strip_fences_wrapped.
  rewrite (json_loads_ws nl t nl eq_refl eq_refl Hbom), Ht; reflexivity.
Qed.

(** * Further properties of the program *)

(** ** The prompt *)

Lemma evidence_text_shown (evs1 evs2 : list evidence) :
  map (fun e => (ev_id e, firstn 1500 (ev_description e))) evs1 =
  map (fun e => (ev_id e, firstn 1500 (ev_description e))) evs2 ->
  evidence_text evs1 = evidence_text evs2.
Proof.
  intros H; unfold evidence_text.
  set (line := fun p : nat * pystr => ps "[Log ID " ++ Z_to_dec (Z.of_nat (fst p)) ++ ps "] " ++ snd p).
  replace (map _ evs1) with (map line (map (fun e => (ev_id e, firstn 1500 (ev_description e))) evs1))
    by (rewrite map_map; reflexivity).
  replace (map _ evs2) with (map line (map (fun e => (ev_id e, firstn 1500 (ev_description e))) evs2))
    by (rewrite map_map; reflexivity).
  rewrite H; reflexivity.
Qed.

(** The model sees each observation only through its id and the first 1500
    code points of its description: two evidence lists that agree there give
    the same prompt, hence the same analysis, whatever their types and the rest
    of their descriptions. *)
Theorem analysis_sees_truncated_evidence (evs1 evs2 : list evidence)
    (H : map (fun e => (ev_id e, firstn 1500 (ev_description e))) evs1 =
         map (fun e => (ev_id e, firstn 1500 (ev_description e))) evs2) :
  forall provider invoke plan,
    prompt plan evs1 = prompt plan evs2 /\
    analysis_node provider invoke plan evs1 = analysis_node provider invoke plan evs2.
Proof.
  intros provider invoke plan.
  assert (Hp : prompt plan evs1 = prompt plan evs2)
    by (unfold prompt; rewrite (evidence_text_shown evs1 evs2 H); reflexivity).
  split; [exact Hp|]; unfold analysis_node; rewrite Hp; reflexivity.
Qed.

(** ** The analysis node and the provider *)

(** Only the three provider names of [ModelProvider], spelt exactly, give a
    report.  Once the two extraction steps have succeeded, any other name makes
    the run raise [ValueError] from [ModelProvider(...)], whatever the model
    would have answered. *)
Theorem report_needs_known_provider (provider : pystr)
    (invoke : ModelProvider -> pystr -> pystr) (logs : json) :
  (forall md, run_graph provider invoke logs = Ok md ->
     provider = ps "openai" \/ provider = ps "gemini" \/ provider = ps "groq") /\
  (forall plan evs,
     extract_plan logs = Ok plan -> extract_evidence logs = Ok evs ->
     provider <> ps "openai" -> provider <> ps "gemini" -> provider <> ps "groq" ->
     run_graph provider invoke logs = Raise ValueError).
Proof.
  split.
  - intros md H; unfold run_graph, analysis_node in H.
    destruct (extract_plan logs); [|discriminate]; cbn [bind] in H.
    destruct (extract_evidence logs); [|discriminate]; cbn [bind] in H.
    unfold model_provider_of in H.
    destruct (pystr_eqb provider (ps "openai")) eqn:E1; [left; apply pystr_eqb_eq; exact E1|].
    destruct (pystr_eqb provider (ps "gemini")) eqn:E2; [right; left; apply pystr_eqb_eq; exact E2|].
    destruct (pystr_eqb provider (ps "groq")) eqn:E3; [right; right; apply pystr_eqb_eq; exact E3|].
    discriminate.
  - intros plan evs Hp He N1 N2 N3; unfold run_graph, analysis_node, model_provider_of.
    rewrite Hp, He; cbn [bind].
    destruct (pystr_eqb provider (ps "openai")) eqn:E1;
      [exfalso; apply N1, pystr_eqb_eq; exact E1|].
    destruct (pystr_eqb provider (ps "gemini")) eqn:E2;
      [exfalso; apply N2, pystr_eqb_eq; exact E2|].
    destruct (pystr_eqb provider (ps "groq")) eqn:E3;
      [exfalso; apply N3, pystr_eqb_eq; exact E3|].
    reflexivity.
Qed.

(** ** Undecodable replies *)

Lemma reporting_fallback (c : pystr) :
  reporting_node (fallback_report c) =
  Ok (report_header ++ ps "| Error parsing LLM output | " ++ icon_cross ++ ps " **Deviation** | "
      ++ safe_text c ++ ps " |" ++ nl).
Proof.
  unfold reporting_node, fallback_report; cbn [py_iter bind report_rows].
  match goal with |- context [report_row ?it] =>
    assert (Hr : report_row it = Ok (ps "| Error parsing LLM output | " ++ icon_cross
                   ++ ps " **Deviation** | " ++ safe_text c ++ ps " |" ++ nl))
      by (vm_compute; reflexivity) end.
  rewrite Hr; cbn [bind]; rewrite app_nil_r; reflexivity.
Qed.

(** When the stripped reply does not decode, the report is the header and one
    row: step "Error parsing LLM output", the negative marker, status
    "Deviation", and the stripped reply with pipes and newlines escaped. *)
Theorem undecodable_reply_one_row (response : pystr)
    (Hdec : json_loads (strip_fences response) = Raise JSONDecodeError) :
  after_invoke response =
  Ok (report_header ++ ps "| Error parsing LLM output | " ++ icon_cross ++ ps " **Deviation** | "
      ++ safe_text (strip_fences response) ++ ps " |" ++ nl).
Proof.
  unfold after_invoke, parse_response; rewrite Hdec; cbn [bind].
  apply reporting_fallback.
Qed.

Lemma json_loads_backtick (r : pystr) : json_loads (96 :: r) = Raise JSONDecodeError.
Proof.
  unfold json_loads, json_fuel; cbn [startswith skip_ws json_ws Z.eqb orb andb length].
  replace (2 * S (length r) + 2)%nat with (S (2 * length r + 3))%nat by lia.
  reflexivity.
Qed.

(** A reply fenced by a bare "```" line (no "json" tag) keeps its opening
    fence: it never decodes, and the analysis falls back to the error row with
    the fenced text, less the closing fence, as reasoning. *)
Theorem bare_fence_falls_back (t : pystr) :
  parse_response (ps "```" ++ nl ++ t ++ nl ++ ps "```") =
  Ok (fallback_report (ps "```" ++ nl ++ t ++ nl)).
Proof.
  change (ps "```") with [96; 96; 96]; unfold nl.
  set (x := [96; 96; 96] ++ [10] ++ t ++ [10]).
  replace ([96; 96; 96] ++ [10] ++ t ++ [10] ++ [96; 96; 96]) with (x ++ [96; 96; 96])
    by (unfold x; rewrite <- !app_assoc; reflexivity).
  assert (Hs : strip_fences (x ++ [96; 96; 96]) = x).
  { unfold strip_fences.
    rewrite (py_strip_fixed _ (96 :: 96 :: [10] ++ t ++ [10] ++ [96; 96; 96])
               (96 :: 96 :: rev x) 96 96);
      [| unfold x; rewrite <- !app_assoc; reflexivity | rewrite rev_app_distr; reflexivity
       | reflexivity | reflexivity].
    change (startswith (x ++ [96; 96; 96]) (ps "```json")) with false; cbv iota.
    unfold endswith; rewrite rev_app_distr.
    change (rev (ps "```")) with [96; 96; 96]; rewrite startswith_app_self.
    rewrite length_app; cbn [length]; rewrite Nat.add_sub, firstn_app, firstn_all, Nat.sub_diag.
    apply app_nil_r. }
  unfold parse_response; rewrite Hs; unfold x; cbn [app]; rewrite json_loads_backtick; reflexivity.
Qed.

(** ** The plan steps *)

Lemma split_nl_no_nl (s l : pystr) : In l (split_nl s) -> ~ In 10 l.
Proof.
  revert l; induction s as [|c s IH]; cbn [split_nl]; intros l Hl.
  - destruct Hl as [<-|[]]; intros [].
  - destruct (c =? 10) eqn:Ec.
    + destruct Hl as [<-|Hl]; [intros []|exact (IH l Hl)].
    + destruct (split_nl s) as [|l0 ls] eqn:Es.
      * destruct Hl as [<-|[]]; intros [H|[]]; subst; discriminate.
      * destruct Hl as [<-|Hl].
        -- intros [H|H]; [subst; discriminate|].
           exact (IH l0 (or_introl eq_refl) H).
        -- exact (IH l (or_intror Hl)).
Qed.

Lemma in_lstrip (x : Z) (s : pystr) : In x (lstrip s) -> In x s.
Proof. destruct (lstrip_suffix s) as [p Hp]; intros H; rewrite Hp; apply in_or_app; auto. Qed.

Lemma in_py_strip (x : Z) (s : pystr) : In x (py_strip s) -> In x s.
Proof.
  unfold py_strip; intros H.
  apply in_rev, in_lstrip, in_rev, in_lstrip in H; exact H.
Qed.

Lemma in_strip_ordinal (x : Z) (l : pystr) : In x (strip_ordinal l) -> In x l.
Proof.
  unfold strip_ordinal; destruct (span_decimal l) as [ds r] eqn:E.
  apply span_decimal_app in E; subst l.
  destruct ds as [|d ds]; [auto|].
  destruct r as [|c r]; [auto|].
  destruct (c =? 46); [|auto].
  intros H; apply in_lstrip in H; apply in_or_app; right; right; exact H.
Qed.

Lemma plan_loop_result (es : list json) (steps : list pystr) :
  plan_loop es = Ok steps -> steps = [] \/ exists t, steps = plan_steps t.
Proof.
  induction es as [|e es IH]; cbn [plan_loop]; intros H.
  - injection H as <-; left; reflexivity.
  - destruct e; try discriminate; cbn [py_get bind] in H.
    destruct (get_is _ _); [|exact (IH H)].
    destruct (obj_get (ps "content") kvs) as [[| | | | | | ckvs]|]; try exact (IH H).
    destruct (obj_get (ps "plan") ckvs) as [v|]; [|exact (IH H)].
    destruct (truthy v); [|exact (IH H)].
    destruct v; try discriminate; injection H as <-; right; eexists; reflexivity.
Qed.

Lemma extract_plan_result (logs : json) (steps : list pystr) :
  extract_plan logs = Ok steps -> steps = [] \/ exists t, steps = plan_steps t.
Proof.
  unfold extract_plan; destruct logs; intros H;
    try (injection H as <-; left; reflexivity).
  - apply plan_loop_result with (1 := H).
  - destruct (obj_get (ps "planner_agent") kvs) as [target|];
      [|injection H as <-; left; reflexivity].
    destruct (py_iter target); [|discriminate]; cbn [bind] in H.
    apply plan_loop_result with (1 := H).
Qed.

(** Every plan step [extract_plan] returns is a single line already stripped
    of surrounding whitespace: it holds no newline and [strip()] leaves it
    unchanged. *)
Theorem plan_steps_stripped (logs : json) (steps : list pystr)
    (H : extract_plan logs = Ok steps) :
  Forall (fun st => py_strip st = st /\ ~ In 10 st) steps.
Proof.
  destruct (extract_plan_result logs steps H) as [->|[t ->]]; [constructor|].
  apply Forall_forall; intros st Hst.
  unfold plan_steps in Hst; apply in_map_iff in Hst as [l [<- Hl]].
  apply filter_In in Hl as [Hl _].
  unfold step_of_line; split; [apply py_strip_idem|].
  intros Hn; apply in_py_strip, in_strip_ordinal in Hn.
  exact (split_nl_no_nl t l Hl Hn).
Qed.

(** ** The evidence records *)

Lemma evidence_loop_ids (i : nat) (es : list json) (recs : list evidence) :
  evidence_loop i es = Ok recs ->
  StronglySorted lt (map ev_id recs) /\
  Forall (fun r => (i <= ev_id r < i + length es)%nat /\ ev_type r = ps "observation") recs.
Proof.
  revert i recs; induction es as [|e es IH]; cbn [evidence_loop]; intros i recs H.
  - injection H as <-; split; constructor.
  - destruct e; try discriminate; cbn [py_get bind] in H.
    destruct (get_is _ _).
    + destruct (evidence_loop (S i) es) as [evs|] eqn:Ev; [|discriminate].
      cbn [bind] in H; injection H as <-.
      destruct (IH (S i) evs Ev) as [Hs Hf].
      split.
      * cbn [map]; constructor; [exact Hs|].
        apply Forall_map; apply Forall_impl with (2 := Hf); intros r [Hr _]; cbn [ev_id]; lia.
      * constructor; [cbn [ev_id ev_type length]; split; [lia | reflexivity]|].
        apply Forall_impl with (2 := Hf); intros r [Hr Ht]; cbn [length]; split; [lia | exact Ht].
    + destruct (IH (S i) recs H) as [Hs Hf]; split; [exact Hs|].
      apply Forall_impl with (2 := Hf); intros r [Hr Ht]; cbn [length]; split; [lia | exact Ht].
Qed.

(** The evidence records come in strictly increasing id order (so no two share
    an id), every id is a position in the sequence the parser iterates, and
    every record has type "observation". *)
Theorem evidence_ids_increasing (logs : json) (recs : list evidence)
    (H : extract_evidence logs = Ok recs) :
  StronglySorted lt (map ev_id recs) /\
  exists entries, py_iter (target_logs logs) = Ok entries /\
    Forall (fun r => (ev_id r < length entries)%nat /\ ev_type r = ps "observation") recs.
Proof.
  unfold extract_evidence in H.
  destruct (py_iter (target_logs logs)) as [entries|] eqn:Ei; [|discriminate].
  cbn [bind] in H; destruct (evidence_loop_ids 0 entries recs H) as [Hs Hf].
  split; [exact Hs|]; exists entries; split; [reflexivity|].
  apply Forall_impl with (2 := Hf); intros r [Hr Ht]; split; [lia | exact Ht].
Qed.

(** ** The rendered table *)

Lemma report_row_shape (it : json) (row : pystr) :
  report_row it = Ok row ->
  exists step st r glyph,
    py_subscript it (ps "step") = Ok step /\ py_subscript it (ps "status") = Ok (JStr st) /\
    ~ In 10 glyph /\
    row = ps "| " ++ py_str step ++ ps " | " ++ glyph ++ ps " **" ++ st ++ ps "** | "
          ++ safe_text r ++ ps " |" ++ nl.
Proof.
  unfold report_row; intros H.
  destruct (py_subscript it (ps "status")) as [v|] eqn:Es; [|discriminate].
  cbn [bind] in H; destruct v; try discriminate; cbn [bind str_lower] in H.
  destruct (py_subscript it (ps "reasoning")) as [v|] eqn:Er; [|discriminate].
  cbn [bind] in H; destruct v; try discriminate; cbn [bind str_value] in H.
  destruct (py_subscript it (ps "step")) as [step|] eqn:Et; [|discriminate].
  cbn [bind] in H; injection H as <-.
  eexists step, s, s0, _; split; [reflexivity|]; split; [reflexivity|]; split; [|reflexivity].
  destruct (pystr_eqb _ (ps "skipped")); [|destruct (pystr_eqb _ (ps "deviation"))];
    cbn; lia.
Qed.

Lemma count_app (a b : pystr) :
  count_occ Z.eq_dec (a ++ b) 10 = Nat.add (count_occ Z.eq_dec a 10) (count_occ Z.eq_dec b 10).
Proof. apply count_occ_app. Qed.

Lemma count_none (a : pystr) : ~ In 10 a -> count_occ Z.eq_dec a 10 = 0%nat.
Proof. apply count_occ_not_In. Qed.

(** When no step and no status of the classifications prints with a newline,
    the report has exactly one line per classification after its four header
    lines (title, blank line, column names, alignment row). *)
Theorem report_line_count (items : list json) (md : pystr)
    (H : reporting_node (JArr items) = Ok md)
    (Hnl : Forall (fun it => forall v, py_subscript it (ps "step") = Ok v \/
                                       py_subscript it (ps "status") = Ok v ->
                                       ~ In 10 (py_str v)) items) :
  count_occ Z.eq_dec md 10 = (4 + length items)%nat.
Proof.
  unfold reporting_node in H; change (py_iter (JArr items)) with (Ok items) in H.
  cbn [bind] in H.
  destruct (report_rows items) as [rows|] eqn:Er; [|discriminate].
  assert (Hmd : md = report_header ++ rows) by (cbn [bind] in H; congruence); subst md; clear H.
  apply report_rows_ok in Er as [rs [Hf ->]].
  rewrite count_app; change (count_occ Z.eq_dec report_header 10) with 4%nat; f_equal.
  induction Hf as [|it row items rs Hr Hf IH]; [reflexivity|].
  inversion Hnl as [|? ? Hit Hrest]; subst.
  cbn [concat length]; rewrite count_app, (IH Hrest).
  destruct (report_row_shape it row Hr) as [step [st [r [glyph [Hs [Ht [Hg ->]]]]]]].
  rewrite !count_app.
  rewrite (count_none (py_str step)) by (apply Hit; left; exact Hs).
  rewrite (count_none st) by (apply (Hit (JStr st)); right; exact Ht).
  rewrite (count_none glyph Hg), (count_none (safe_text r) (proj2 (safe_text_clean r))).
  reflexivity.
Qed.

(** ** The plan block of the prompt *)

Lemma hex_pad4 (c : Z) :
  hex_pad 4 c = [hex_digit (c / 16 / 16 / 16 mod 16); hex_digit (c / 16 / 16 mod 16);
                 hex_digit (c / 16 mod 16); hex_digit (c mod 16)].
Proof. reflexivity. Qed.

Lemma hex_val_digit (d : Z) : 0 <= d < 16 -> hex_val (hex_digit d) = Some d.
Proof.
  intros Hd.
  assert (d = 0 \/ d = 1 \/ d = 2 \/ d = 3 \/ d = 4 \/ d = 5 \/ d = 6 \/ d = 7 \/
          d = 8 \/ d = 9 \/ d = 10 \/ d = 11 \/ d = 12 \/ d = 13 \/ d = 14 \/ d = 15)
    as Hc by lia.
  repeat destruct Hc as [-> | Hc]; [reflexivity ..|]; subst; reflexivity.
Qed.

Lemma hex4_pad (c : Z) : 0 <= c < 65536 ->
  hex4 (hex_digit (c / 16 / 16 / 16 mod 16)) (hex_digit (c / 16 / 16 mod 16))
       (hex_digit (c / 16 mod 16)) (hex_digit (c mod 16)) = Some c.
Proof.
  intros Hc; unfold hex4.
  rewrite !hex_val_digit by (apply Z.mod_pos_bound; lia).
  f_equal.
  pose proof (Z.div_mod c 16 ltac:(lia)) as E0.
  pose proof (Z.div_mod (c / 16) 16 ltac:(lia)) as E1.
  pose proof (Z.div_mod (c / 16 / 16) 16 ltac:(lia)) as E2.
  pose proof (Z.div_mod (c / 16 / 16 / 16) 16 ltac:(lia)) as E3.
  pose proof (Z.mod_pos_bound c 16 ltac:(lia)).
  pose proof (Z.mod_pos_bound (c / 16) 16 ltac:(lia)).
  pose proof (Z.mod_pos_bound (c / 16 / 16) 16 ltac:(lia)).
  pose proof (Z.mod_pos_bound (c / 16 / 16 / 16) 16 ltac:(lia)).
  lia.
Qed.

Lemma land_shift_low (a b : Z) : 0 <= b < 1024 -> Z.land (a * 2 ^ 10) b = 0.
Proof.
  intros Hb; apply Z.bits_inj'; intros n Hn.
  rewrite Z.land_spec, Z.bits_0.
  destruct (Z.lt_ge_cases n 10).
  - rewrite Z.mul_pow2_bits_low by lia; reflexivity.
  - rewrite <- (Z.mod_small b (2 ^ 10)) by (cbn; lia).
    rewrite Z.mod_pow2_bits_high by lia; apply andb_false_r.
Qed.

Lemma lor_shift_low (a b : Z) : 0 <= b < 1024 -> Z.lor (Z.shiftl a 10) b = a * 1024 + b.
Proof.
  intros Hb; rewrite Z.shiftl_mul_pow2 by lia.
  rewrite <- Z.lxor_lor, <- Z.add_nocarry_lxor by (apply land_shift_low; exact Hb).
  reflexivity.
Qed.

Lemma pstring_u_single (a b c1 d u : Z) (r : pystr) :
  hex4 a b c1 d = Some u -> is_high_surrogate u = false ->
  pstring (92 :: 117 :: a :: b :: c1 :: d :: r) = pcons u (pstring r).
Proof. intros H1 H2; cbn [pstring Z.eqb Pos.eqb]; rewrite H1, H2; reflexivity. Qed.

Lemma pstring_u_pair (a b c1 d a2 b2 c2 d2 u u2 : Z) (r : pystr) :
  hex4 a b c1 d = Some u -> is_high_surrogate u = true ->
  hex4 a2 b2 c2 d2 = Some u2 -> is_low_surrogate u2 = true ->
  pstring (92 :: 117 :: a :: b :: c1 :: d :: 92 :: 117 :: a2 :: b2 :: c2 :: d2 :: r) =
  pcons (65536 + Z.lor (Z.shiftl (u - 55296) 10) (u2 - 56320)) (pstring r).
Proof. intros H1 H2 H3 H4; cbn [pstring Z.eqb Pos.eqb andb]; rewrite H1, H2, H3, H4; reflexivity. Qed.

Lemma pstring_u_escape (c : Z) (r : pystr) :
  0 <= c < 65536 -> is_high_surrogate c = false ->
  pstring (u_escape c ++ r) = pcons c (pstring r).
Proof.
  intros Hc Hh; unfold u_escape; rewrite hex_pad4; cbn [app].
  apply pstring_u_single; [apply hex4_pad; exact Hc | exact Hh].
Qed.

Lemma pstring_esc_char (c : Z) (r : pystr) :
  scalar_value c = true -> pstring (json_esc_char c ++ r) = pcons c (pstring r).
Proof.
  unfold scalar_value; intros Hv.
  apply andb_prop in Hv as [Hv Hs]; apply andb_prop in Hv as [H0 H1].
  apply Z.leb_le in H0; apply Z.leb_le in H1; apply negb_true_iff in Hs.
  unfold json_esc_char.
  destruct (c =? 92) eqn:E; [apply Z.eqb_eq in E; subst; reflexivity|].
  destruct (c =? 34) eqn:E'; [apply Z.eqb_eq in E'; subst; reflexivity|].
  destruct (c =? 8) eqn:E2; [apply Z.eqb_eq in E2; subst; reflexivity|].
  destruct (c =? 12) eqn:E3; [apply Z.eqb_eq in E3; subst; reflexivity|].
  destruct (c =? 10) eqn:E4; [apply Z.eqb_eq in E4; subst; reflexivity|].
  destruct (c =? 13) eqn:E5; [apply Z.eqb_eq in E5; subst; reflexivity|].
  destruct (c =? 9) eqn:E6; [apply Z.eqb_eq in E6; subst; reflexivity|].
  destruct ((32 <=? c) && (c <=? 126)) eqn:Ep.
  - apply andb_prop in Ep as [Ep1 Ep2]; apply Z.leb_le in Ep1.
    cbn [app pstring]; rewrite E', E.
    replace (c <? 32) with false by (symmetry; apply Z.ltb_ge; lia); reflexivity.
  - destruct (65536 <=? c) eqn:Eb.
    + apply Z.leb_le in Eb.
      set (h := c - 65536).
      assert (Hh : 0 <= h < 1048576) by (unfold h; lia).
      assert (Hhc : c = h + 65536) by (unfold h; lia).
      clearbody h.
      assert (Hhi : Z.shiftr h 10 = h / 1024) by (rewrite Z.shiftr_div_pow2 by lia; reflexivity).
      assert (Hlo : Z.land h 1023 = h mod 1024)
        by (change 1023 with (Z.ones 10); rewrite Z.land_ones by lia; reflexivity).
      rewrite Hhi, Hlo.
      pose proof (Z.div_mod h 1024 ltac:(lia)) as Ed.
      pose proof (Z.mod_pos_bound h 1024 ltac:(lia)) as Em.
      assert (Hq : 0 <= h / 1024 < 1024) by (split; [apply Z.div_pos | apply Z.div_lt_upper_bound]; lia).
      unfold u_escape; rewrite !hex_pad4; cbn [app].
      rewrite (pstring_u_pair _ _ _ _ _ _ _ _ (55296 + h / 1024) (56320 + h mod 1024)).
      * f_equal. rewrite lor_shift_low by lia. lia.
      * apply hex4_pad; lia.
      * unfold is_high_surrogate; apply andb_true_intro; split; apply Z.leb_le; lia.
      * apply hex4_pad; lia.
      * unfold is_low_surrogate; apply andb_true_intro; split; apply Z.leb_le; lia.
    + apply Z.leb_gt in Eb.
      apply pstring_u_escape; [lia|].
      unfold is_high_surrogate; apply Bool.not_true_iff_false; intros Hx.
      apply andb_prop in Hx as [Hx1 Hx2]; apply Z.leb_le in Hx1, Hx2.
      rewrite (proj2 (Z.leb_le 55296 c) Hx1) in Hs; cbn [andb] in Hs.
      apply Z.leb_gt in Hs; lia.
Qed.

Lemma pstring_encoded (s r : pystr) :
  forallb scalar_value s = true ->
  pstring (flat_map json_esc_char s ++ 34 :: r) = POk s r.
Proof.
  induction s as [|c s IH]; intros Hv; [reflexivity|].
  cbn [forallb] in Hv; apply andb_prop in Hv as [Hc Hv].
  cbn [flat_map]; rewrite <- app_assoc, (pstring_esc_char c _ Hc), (IH Hv); reflexivity.
Qed.

Lemma scan_once_encoded (n d : nat) (x r : pystr) :
  forallb scalar_value x = true ->
  scan_once (S n) d (encode_basestring_ascii x ++ r) = POk (JStr x) r.
Proof.
  intros Hx; unfold encode_basestring_ascii; rewrite <- !app_assoc; cbn [app scan_once Z.eqb Pos.eqb].
  rewrite (pstring_encoded x r Hx); reflexivity.
Qed.

Lemma join_encoded_head (y : pystr) (ys : list pystr) :
  exists t, join [44; 10; 32; 32] (map encode_basestring_ascii (y :: ys)) = 34 :: t.
Proof.
  destruct ys as [|z zs]; cbn [map join]; unfold encode_basestring_ascii; eexists; reflexivity.
Qed.

Lemma parse_elems_S (n d : nat) (s : pystr) (acc : list json) :
  parse_elems (S n) d s acc =
  match scan_once n d s with
  | POk v r =>
      match skip_ws r with
      | c1 :: r' =>
          if c1 =? 93 then POk (JArr (rev (v :: acc))) r'
          else if c1 =? 44 then parse_elems n d (skip_ws r') (v :: acc)
          else PErr JSONDecodeError
      | [] => PErr JSONDecodeError
      end
  | PErr e => PErr e
  | PFuel => PFuel
  end.
Proof. reflexivity. Qed.

Lemma parse_elems_plan (d : nat) (xs : list pystr) :
  forall n acc rest x,
  forallb scalar_value x = true -> Forall (fun st => forallb scalar_value st = true) xs ->
  parse_elems n d (join [44; 10; 32; 32] (map encode_basestring_ascii (x :: xs)) ++ [10; 93] ++ rest) acc = PFuel \/
  parse_elems n d (join [44; 10; 32; 32] (map encode_basestring_ascii (x :: xs)) ++ [10; 93] ++ rest) acc =
    POk (JArr (rev acc ++ map JStr (x :: xs))) rest.
Proof.
  induction xs as [|y ys IH]; intros n acc rest x Hx Hxs;
    (destruct n as [|[|n]]; [left; reflexivity | left; reflexivity|]).
  - right; cbn [map join]; rewrite parse_elems_S, (scan_once_encoded n d x _ Hx).
    cbn [skip_ws json_ws Z.eqb Pos.eqb orb]; reflexivity.
  - inversion Hxs as [|? ? Hy Hys]; subst.
    change (map encode_basestring_ascii (x :: y :: ys))
      with (encode_basestring_ascii x :: map encode_basestring_ascii (y :: ys)).
    destruct (join_encoded_head y ys) as [t Ht].
    change (join [44; 10; 32; 32] (encode_basestring_ascii x :: map encode_basestring_ascii (y :: ys)))
      with (encode_basestring_ascii x ++ [44; 10; 32; 32] ++ join [44; 10; 32; 32] (map encode_basestring_ascii (y :: ys))).
    rewrite <- !app_assoc.
    rewrite parse_elems_S, (scan_once_encoded n d x _ Hx).
    rewrite Ht; cbn [app skip_ws json_ws Z.eqb Pos.eqb orb].
    change (34 :: t ++ 10 :: 93 :: rest) with ((34 :: t) ++ [10; 93] ++ rest); rewrite <- Ht.
    destruct (IH (S n) (JStr x :: acc) rest y Hy Hys) as [E|E]; [left; exact E|].
    right; etransitivity; [exact E|]; cbn [rev map]; rewrite <- app_assoc; reflexivity.
Qed.

Lemma scan_once_plan (n d : nat) (plan : list pystr) :
  (0 < d)%nat -> Forall (fun st => forallb scalar_value st = true) plan ->
  scan_once n d (json_dumps_indent2 plan) = PFuel \/
  scan_once n d (json_dumps_indent2 plan) = POk (JArr (map JStr plan)) [].
Proof.
  intros Hd Hv; destruct d as [|d]; [lia|].
  destruct n as [|n]; [left; reflexivity|].
  destruct plan as [|x xs]; [right; reflexivity|].
  inversion Hv as [|? ? Hx Hxs]; subst.
  unfold json_dumps_indent2.
  destruct (join_encoded_head x xs) as [t Ht].
  cbn [app scan_once Z.eqb Pos.eqb]; cbn [skip_ws json_ws Z.eqb Pos.eqb orb].
  assert (Hsk : skip_ws (join [44; 10; 32; 32] (map encode_basestring_ascii (x :: xs)) ++ [10; 93])
                = (34 :: t) ++ [10; 93]) by (rewrite Ht; reflexivity).
  rewrite Hsk; cbn [app Z.eqb Pos.eqb].
  change (34 :: t ++ [10; 93]) with ((34 :: t) ++ [10; 93] ++ []); rewrite <- Ht.
  exact (parse_elems_plan d xs n [] [] x Hx Hxs).
Qed.

(** The plan block of the prompt, [json.dumps(plan, indent=2)], stands in the
    prompt after the fixed text that ends with "PLAN TO VERIFY:", whatever the
    evidence.  For every plan whose steps are strings of Unicode scalar values
    (no lone surrogate code points), [json.loads] of that block returns a list
    of exactly the plan's steps, in order.  The only condition on the runtime is
    that the decoder's nesting limit admits one list. *)
Theorem prompt_plan_round_trip (plan : list pystr)
    (Hd : (0 < rt_recursion_limit rt)%nat)
    (Hv : Forall (fun st => forallb scalar_value st = true) plan) :
  (forall evs, exists post,
     prompt plan evs =
       (nl ++ indent4 ++ ps "You are an Expert QA Video Analyst. Your task is to verify if a test agent executed its plan correctly based on the Execution Logs provided." ++ nl
        ++ indent4 ++ nl
        ++ indent4 ++ ps "The 'Execution Logs' act as the ground truth (visual evidence/DOM state)." ++ nl
        ++ indent4 ++ nl
        ++ indent4 ++ ps "PLAN TO VERIFY:" ++ nl ++ indent4)
       ++ json_dumps_indent2 plan ++ post) /\
  json_loads (json_dumps_indent2 plan) = Ok (JArr (map JStr plan)).
Proof.
  split.
  { intros evs; eexists; unfold prompt; rewrite <- !app_assoc; reflexivity. }
  unfold json_loads.
  assert (Hs : startswith (json_dumps_indent2 plan) [65279] = false)
    by (destruct plan; reflexivity).
  assert (Hw : skip_ws (json_dumps_indent2 plan) = json_dumps_indent2 plan)
    by (destruct plan; reflexivity).
  rewrite Hs, Hw.
  pose proof (scan_once_fuel_enough (rt_recursion_limit rt) (json_dumps_indent2 plan)) as Hf.
  destruct (scan_once_plan (json_fuel (json_dumps_indent2 plan)) _ plan Hd Hv) as [E|E];
    rewrite E; [contradiction | reflexivity].
Qed.

Lemma forallb_join (f : Z -> bool) (sep : pystr) (l : list pystr) :
  forallb f sep = true -> Forall (fun x => forallb f x = true) l -> forallb f (join sep l) = true.
Proof.
  intros Hs Hl; induction Hl as [|x l Hx Hl IH]; [reflexivity|].
  destruct l as [|y l]; [exact Hx|].
  change (join sep (x :: y :: l)) with (x ++ sep ++ join sep (y :: l)).
  rewrite !forallb_app, Hx, Hs, IH; reflexivity.
Qed.

Lemma hex_pad_ascii (w : nat) (c : Z) : forallb (fun c => c <? 128) (hex_pad w c) = true.
Proof.
  revert c; induction w as [|w IH]; intros c; [reflexivity|].
  cbn [hex_pad]; rewrite forallb_app, IH; cbn [forallb andb].
  pose proof (Z.mod_pos_bound c 16 ltac:(lia)).
  unfold hex_digit; destruct (c mod 16 <? 10); apply andb_true_intro; split; try reflexivity;
    apply Z.ltb_lt; lia.
Qed.

Lemma json_esc_char_ascii (c : Z) : forallb (fun c => c <? 128) (json_esc_char c) = true.
Proof.
  unfold json_esc_char, u_escape.
  repeat match goal with |- context [if ?b then _ else _] => destruct b eqn:? end;
    try reflexivity;
    try (rewrite ?forallb_app; cbn [forallb]; rewrite ?hex_pad_ascii; reflexivity).
  match goal with H : (32 <=? c) && (c <=? 126) = true |- _ =>
    apply andb_prop in H as [_ H]; apply Z.leb_le in H end.
  cbn [forallb]; rewrite andb_true_r; apply Z.ltb_lt; lia.
Qed.

(** The plan block of the prompt is ASCII text for every plan: [json.dumps]
    escapes every other code point as [\uXXXX] (a surrogate pair beyond the
    Basic Multilingual Plane). *)
Theorem prompt_plan_ascii (plan : list pystr) : is_ascii (json_dumps_indent2 plan) = true.
Proof.
  unfold is_ascii, json_dumps_indent2; destruct plan as [|x xs]; [reflexivity|].
  rewrite !forallb_app; cbn [forallb Z.ltb Z.compare Pos.compare Pos.compare_cont andb].
  rewrite forallb_join; [reflexivity | reflexivity|].
  apply Forall_forall; intros e He; apply in_map_iff in He as [s [<- _]].
  unfold encode_basestring_ascii; rewrite !forallb_app; cbn [forallb andb].
  assert (Hf : forallb (fun c => c <? 128) (flat_map json_esc_char s) = true).
  { induction s as [|c s IH]; [reflexivity|].
    cbn [flat_map]; rewrite forallb_app, json_esc_char_ascii, IH; reflexivity. }
  rewrite Hf; reflexivity.
Qed.

(** ** Edge cases of the line and reply cleaning *)

Lemma lstrip_all_space (w : pystr) : forallb py_isspace w = true -> lstrip w = [].
Proof.
  induction w as [|c w IH]; cbn [forallb lstrip]; intros H; [reflexivity|].
  apply andb_prop in H as [-> H]; exact (IH H).
Qed.

Lemma in_lstrip_nonspace (x : Z) (s : pystr) :
  In x s -> py_isspace x = false -> In x (lstrip s).
Proof.
  induction s as [|c s IH]; cbn [lstrip In]; intros H Hx; [contradiction|].
  destruct (py_isspace c) eqn:Ec.
  - destruct H as [<-|H]; [congruence | exact (IH H Hx)].
  - exact H.
Qed.

Lemma in_py_strip_nonspace (x : Z) (s : pystr) :
  In x s -> py_isspace x = false -> In x (py_strip s).
Proof.
  intros H Hx; unfold py_strip.
  rewrite <- in_rev; apply in_lstrip_nonspace; [|assumption].
  rewrite <- in_rev; apply in_lstrip_nonspace; assumption.
Qed.

Lemma span_decimal_digits (ds r : pystr) :
  forallb is_digit ds = true -> (forall c r', r = c :: r' -> py_isdecimal c = false) ->
  span_decimal (ds ++ r) = (ds, r).
Proof.
  intros Hd Hr; induction ds as [|d ds IH]; cbn [app span_decimal].
  - destruct r as [|c r']; [reflexivity|]; cbn [span_decimal]; rewrite (Hr c r' eq_refl); reflexivity.
  - cbn [forallb] in Hd; apply andb_prop in Hd as [Hd1 Hd2].
    unfold py_isdecimal at 1; rewrite Hd1; cbn [orb]; rewrite (IH Hd2); reflexivity.
Qed.

(** A plan line that is only an ordinal ("3.", possibly followed by
    whitespace) is kept, since it is not blank, and gives an empty plan step. *)
Theorem ordinal_only_line_empty_step (ds w : pystr)
    (Hds : ds <> []) (Hd : forallb is_digit ds = true) (Hw : forallb py_isspace w = true) :
  negb (is_nil (py_strip (ds ++ 46 :: w))) = true /\ step_of_line (ds ++ 46 :: w) = [].
Proof.
  split.
  - destruct (py_strip (ds ++ 46 :: w)) eqn:E; [|reflexivity].
    assert (H : In 46 (py_strip (ds ++ 46 :: w)))
      by (apply in_py_strip_nonspace; [apply in_or_app; right; left; reflexivity | reflexivity]).
    rewrite E in H; destruct H.
  - unfold step_of_line, strip_ordinal.
    rewrite span_decimal_digits by (exact Hd || (intros c r' H; injection H as <- _; reflexivity)).
    destruct ds as [|d ds]; [congruence|].
    cbn [Z.eqb Pos.eqb]; rewrite (lstrip_all_space w Hw); reflexivity.
Qed.

(** An empty or all-whitespace reply does not decode; the report is the header
    and the single fallback row with empty notes. *)
Theorem blank_reply_one_row (w : pystr) (Hw : forallb py_isspace w = true) :
  after_invoke w =
  Ok (report_header ++ ps "| Error parsing LLM output | " ++ icon_cross ++ ps " **Deviation** | "
      ++ ps " |" ++ nl).
Proof.
  assert (Hs : strip_fences w = []).
  { unfold strip_fences, py_strip; rewrite (lstrip_all_space w Hw); reflexivity. }
  unfold after_invoke, parse_response; rewrite Hs.
  change (json_loads []) with (@Raise json JSONDecodeError); cbn [bind].
  rewrite reporting_fallback; reflexivity.
Qed.

End Agent.

(** * Instances on concrete inputs *)

(** C1 on a reply that is not JSON. *)
Lemma parse_failure_fallback_witness :
  json_loads sample_rt (strip_fences (ps "not json")) = Raise JSONDecodeError /\
  parse_response sample_rt (ps "not json") = Ok (fallback_report (ps "not json")).
Proof.
  split; [vm_compute; reflexivity|].
  exact (parse_failure_fallback sample_rt (ps "not json") ltac:(vm_compute; reflexivity)).
Defined.

(** C4 on a log whose first event carries a two-line plan. *)
Lemma extract_plan_first_nonempty_witness :
  extract_plan sample_rt (JArr sample_log) = Ok [ps "Open page"; ps "Click submit"].
Proof.
  rewrite (extract_plan_first_nonempty sample_rt (JArr sample_log) sample_log eq_refl).
  - vm_compute; reflexivity.
  - repeat constructor; eexists; reflexivity.
  - repeat constructor; intros kvs v Hn Hc Hp _; vm_compute in Hn, Hc; try discriminate.
    injection Hc as <-; vm_compute in Hp; injection Hp as <-; eexists; reflexivity.
Defined.

(** C5 on the same log: the observations at positions 1 and 3. *)
Lemma extract_evidence_user_events_witness :
  extract_evidence sample_rt (JArr sample_log) =
  Ok [mk_evidence 1 (ps "observation") (ps "{" ++ quoted "url" ++ ps ": " ++ quoted "/home" ++ ps "}");
      mk_evidence 3 (ps "observation") (ps "clicked")].
Proof.
  rewrite (extract_evidence_user_events sample_rt (JArr sample_log) sample_log eq_refl).
  - vm_compute; reflexivity.
  - repeat constructor; eexists; reflexivity.
  - repeat constructor; intros H; vm_compute in H |- *; congruence.
Defined.

(** C7 on a one-element classification list. *)
Lemma fenced_reply_parses_as_bare_witness :
  parse_response sample_rt (ps "```json" ++ nl ++ sample_reply ++ nl ++ ps "```") =
  Ok (JArr sample_reply_value).
Proof.
  destruct (fenced_reply_parses_as_bare sample_rt sample_reply sample_reply_value
              ltac:(vm_compute; reflexivity)) as [H1 H2].
  rewrite H1; exact H2.
Defined.

(** C9 on a "Deviation" classification. *)
Lemma status_glyph_rendered_witness :
  report_row sample_rt sample_item =
  Ok (ps "| Open page | " ++ icon_cross ++ ps " **Deviation** | failed - because error |" ++ nl).
Proof.
  pose proof (status_glyph_rendered sample_rt sample_item (JStr (ps "Open page")) (ps "Deviation")
                (ps "failed | because" ++ nl ++ ps "error") eq_refl eq_refl eq_refl) as H.
  cbv zeta in H; destruct H as [H _]; rewrite H; vm_compute; reflexivity.
Defined.

(** C10 on the reasoning "failed | because\nerror". *)
Lemma reasoning_cell_escaped_witness :
  safe_text (ps "failed | because" ++ nl ++ ps "error") = ps "failed - because error" /\
  ~ In 124 (safe_text (ps "failed | because" ++ nl ++ ps "error")) /\
  ~ In 10 (safe_text (ps "failed | because" ++ nl ++ ps "error")).
Proof.
  destruct (reasoning_cell_escaped sample_rt sample_item (JStr (ps "Open page")) (ps "Deviation")
              (ps "failed | because" ++ nl ++ ps "error") eq_refl eq_refl eq_refl)
    as [lead [_ [_ [H1 H2]]]].
  split; [vm_compute; reflexivity | split; assumption].
Defined.

(** * Counterexamples to the specification's wording *)

(** C1: the fallback reasoning is the trimmed reply, not the raw text. *)
Lemma fallback_reasoning_is_trimmed :
  json_loads sample_rt (strip_fences (ps " oops")) = Raise JSONDecodeError /\
  parse_response sample_rt (ps " oops") = Ok (fallback_report (ps "oops")) /\
  ps "oops" <> ps " oops".
Proof. split; [|split]; [vm_compute; reflexivity | vm_compute; reflexivity | discriminate]. Qed.

(** C2: a reply that decodes to a number, or to a list of a mapping without a
    status, makes the reporting node raise after the model call. *)
Lemma after_invoke_raises :
  after_invoke sample_rt (ps "5") = Raise TypeError /\
  after_invoke sample_rt (ps "[{}]") = Raise KeyError.
Proof. split; vm_compute; reflexivity. Qed.

(** C3: a two-step plan and a reply with no classification give a report with
    no data row. *)
Lemma report_rows_follow_reply :
  extract_plan sample_rt (JArr sample_log) = Ok [ps "Open page"; ps "Click submit"] /\
  run_graph sample_rt (ps "openai") (fun _ _ => ps "[]") (JArr sample_log) = Ok report_header.
Proof. split; vm_compute; reflexivity. Qed.

(** C4: a planner event whose plan is empty is passed over. *)
Lemma empty_plan_passed_over :
  extract_plan sample_rt (JArr empty_plan_first_log) = Ok [ps "Open page"] /\
  plan_as_claimed sample_rt empty_plan_first_log = [].
Proof. split; vm_compute; reflexivity. Qed.

(** C6: a "user" event without content is not skipped, and an event that is
    not a mapping raises. *)
Lemma malformed_events_not_skipped :
  extract_evidence sample_rt (JArr [JObj [(ps "name", JStr (ps "user"))]]) =
    Ok [mk_evidence 0 (ps "observation") []] /\
  extract_plan sample_rt (JArr [JInt 5]) = Raise AttributeError /\
  extract_evidence sample_rt (JArr [JInt 5]) = Raise AttributeError.
Proof. split; [|split]; vm_compute; reflexivity. Qed.

(** C8: stripping "1. 2. Click" once leaves an ordinal prefix to strip. *)
Lemma step_of_line_not_idempotent :
  step_of_line sample_rt (ps "1. 2. Click") = ps "2. Click" /\
  step_of_line sample_rt (ps "2. Click") = ps "Click".
Proof. split; vm_compute; reflexivity. Qed.

(** * Instances of the further properties *)

(** Two observations that differ only in type and past the 1500th code point
    of their descriptions; the model here echoes its prompt. *)
Lemma analysis_sees_truncated_evidence_witness :
  analysis_node sample_rt (ps "openai") (fun _ p => p) []
    [mk_evidence 1 (ps "observation") (repeat 97 1501)] =
  analysis_node sample_rt (ps "openai") (fun _ p => p) []
    [mk_evidence 1 (ps "other") (repeat 97 1500)].
Proof.
  exact (proj2 (analysis_sees_truncated_evidence sample_rt _ _ ltac:(vm_compute; reflexivity)
                  (ps "openai") (fun _ p => p) [])).
Defined.

Lemma report_needs_known_provider_witness :
  (ps "groq" = ps "openai" \/ ps "groq" = ps "gemini" \/ ps "groq" = ps "groq") /\
  run_graph sample_rt (ps "Groq") (fun _ _ => ps "[]") (JArr sample_log) = Raise ValueError.
Proof.
  split.
  - apply (proj1 (report_needs_known_provider sample_rt (ps "groq") (fun _ _ => ps "[]")
                    (JArr sample_log)) report_header).
    vm_compute; reflexivity.
  - apply (proj2 (report_needs_known_provider sample_rt (ps "Groq") (fun _ _ => ps "[]")
                    (JArr sample_log)) [ps "Open page"; ps "Click submit"]
             [mk_evidence 1 (ps "observation") (json_dumps sample_rt (JObj [(ps "url", JStr (ps "/home"))]));
              mk_evidence 3 (ps "observation") (ps "clicked")]);
      [vm_compute; reflexivity | vm_compute; reflexivity | discriminate | discriminate | discriminate].
Defined.

Lemma undecodable_reply_one_row_witness :
  after_invoke sample_rt (ps "not json") =
  Ok (report_header ++ ps "| Error parsing LLM output | " ++ icon_cross ++ ps " **Deviation** | "
      ++ ps "not json" ++ ps " |" ++ nl).
Proof.
  exact (undecodable_reply_one_row sample_rt (ps "not json") ltac:(vm_compute; reflexivity)).
Defined.

Lemma plan_steps_stripped_witness :
  extract_plan sample_rt (JArr sample_log) = Ok [ps "Open page"; ps "Click submit"] /\
  Forall (fun st => py_strip st = st /\ ~ In 10 st) [ps "Open page"; ps "Click submit"].
Proof.
  assert (H : extract_plan sample_rt (JArr sample_log) = Ok [ps "Open page"; ps "Click submit"])
    by (vm_compute; reflexivity).
  split; [exact H | exact (plan_steps_stripped sample_rt _ _ H)].
Defined.

Lemma evidence_ids_increasing_witness :
  StronglySorted lt [1%nat; 3%nat] /\
  exists entries, py_iter (target_logs (JArr sample_log)) = Ok entries /\
    Forall (fun r => (ev_id r < length entries)%nat /\ ev_type r = ps "observation")
      [mk_evidence 1 (ps "observation") (ps "{" ++ quoted "url" ++ ps ": " ++ quoted "/home" ++ ps "}");
       mk_evidence 3 (ps "observation") (ps "clicked")].
Proof.
  exact (evidence_ids_increasing sample_rt (JArr sample_log) _ ltac:(vm_compute; reflexivity)).
Defined.

Lemma report_line_count_witness :
  count_occ Z.eq_dec
    (report_header ++ ps "| Open page | " ++ icon_cross ++ ps " **Deviation** | failed - because error |" ++ nl)
    10 = 5%nat.
Proof.
  apply (report_line_count sample_rt [sample_item]).
  - vm_compute; reflexivity.
  - constructor; [|constructor].
    intros v [Hv|Hv]; vm_compute in Hv; injection Hv as <-; vm_compute; intros Hin;
      repeat (destruct Hin as [Hin|Hin]; [discriminate|]); exact Hin.
Defined.

(** A plan whose steps hold a quotation mark, a backslash, a newline, a tab,
    a control character, an accented letter and a character beyond the Basic
    Multilingual Plane. *)
Lemma prompt_plan_round_trip_witness :
  json_loads sample_rt
    (json_dumps_indent2 [[84; 121; 112; 101; 32; 34; 104; 105; 34]; [92; 10; 9; 1];
                         [67; 97; 102; 233]; [128512]]) =
  Ok (JArr [JStr [84; 121; 112; 101; 32; 34; 104; 105; 34]; JStr [92; 10; 9; 1];
            JStr [67; 97; 102; 233]; JStr [128512]]).
Proof.
  exact (proj2 (prompt_plan_round_trip sample_rt
                  [[84; 121; 112; 101; 32; 34; 104; 105; 34]; [92; 10; 9; 1];
                   [67; 97; 102; 233]; [128512]]
                  ltac:(cbn; lia) ltac:(repeat constructor))).
Defined.

Lemma ordinal_only_line_empty_step_witness :
  step_of_line sample_rt (ps "3" ++ 46 :: ps " ") = [].
Proof.
  exact (proj2 (ordinal_only_line_empty_step sample_rt (ps "3") (ps " ")
                  ltac:(discriminate) ltac:(reflexivity) ltac:(reflexivity))).
Defined.

Lemma blank_reply_one_row_witness :
  after_invoke sample_rt (ps " " ++ nl) =
  Ok (report_header ++ ps "| Error parsing LLM output | " ++ icon_cross ++ ps " **Deviation** | "
      ++ ps " |" ++ nl).
Proof. exact (blank_reply_one_row sample_rt (ps " " ++ nl) ltac:(reflexivity)). Defined.
